(** * SailBot simulator (dotbot/sailbot_simulator.py)

    A shallow embedding of the simulated sail boat [SailBotSim] and of the
    fake serial interface [SailBotSimSerialInterface] that drives a fleet of
    them, followed by the properties of the simulator.

    Python [int] values are integers of [Z]; [a % 360] on integers is
    [Z.modulo] (both take the sign of the divisor).  Python [float] values
    live in a type [F] carrying the operations the program uses
    ([PyFloat]), with three readings: exact reals, reals rounded after
    every operation, and binary64 machine floats, on which the model runs.
    Attributes that a method assigns are fields of the record [SailBotSim];
    a method is a function from the object before the call to the outcome
    of the call and the object after it. *)

From Stdlib Require Import ZArith NArith List String Ascii Bool Lia.
From Stdlib Require Import Hexadecimal HexadecimalString HexadecimalN.
From Stdlib Require Import Reals Lra.
From Stdlib Require Import Floats.
Import ListNotations.

Local Open Scope string_scope.
Local Open Scope Z_scope.

(** ** Outcomes of a call *)

(** The exceptions that the modelled code can meet. [CodecError] stands for
    whatever the frame codec raises on a buffer it cannot decode. *)
Inductive exn : Type :=
| ValueError
| OverflowError
| AttributeError
| CodecError (code : Z).

(** A call either returns a value or raises. *)
Inductive result (A : Type) : Type :=
| Returned (a : A)
| Raised (e : exn).

Arguments Returned {A} a.
Arguments Raised {A} e.

Definition bind {A B : Type} (r : result A) (k : A -> result B) : result B :=
  match r with
  | Returned a => k a
  | Raised e => Raised e
  end.

Notation "x <- r ;; k" := (bind r (fun x => k))
  (at level 61, r at next level, right associativity).

Definition returns {A : Type} (r : result A) : Prop :=
  exists a, r = Returned a.

(** ** Floating-point operations used by the simulator *)

Class PyFloat (F : Type) : Type := {
  fadd : F -> F -> F;
  fsub : F -> F -> F;
  fmul : F -> F -> F;
  fdiv : F -> F -> F;
  (** [a >= b] *)
  fge : F -> F -> bool;
  (** conversion of an [int] operand in mixed arithmetic *)
  of_int : Z -> F;
  (** the decimal literal [m * 10^-k] *)
  fdec : Z -> nat -> F;
  math_pi : F;
  (** [int(a)]: truncation toward zero; raises on nan and infinities *)
  int_of : F -> result Z
}.

(** *** Exact reading: real numbers *)

(** Truncation toward zero of a real. *)
Definition Rtrunc (r : R) : Z :=
  if Rle_dec 0 r then Int_part r else - Int_part (- r).

Definition Rgeb (a b : R) : bool :=
  if Rle_dec b a then true else false.

#[export] Instance PyFloat_R : PyFloat R := {
  fadd := Rplus;
  fsub := Rminus;
  fmul := Rmult;
  fdiv := Rdiv;
  fge := Rgeb;
  of_int := IZR;
  fdec := fun m k => (IZR m / IZR (10 ^ Z.of_nat k))%R;
  math_pi := PI;
  int_of := fun r => Returned (Rtrunc r)
}.

(** *** Rounded reading: reals with a rounding after every operation *)

(** Every operation, conversion and literal followed by the rounding
    [rnd]. *)
Definition PyFloat_rounded (rnd : R -> R) : PyFloat R := {|
  fadd := fun a b => rnd (a + b)%R;
  fsub := fun a b => rnd (a - b)%R;
  fmul := fun a b => rnd (a * b)%R;
  fdiv := fun a b => rnd (a / b)%R;
  fge := Rgeb;
  of_int := fun z => rnd (IZR z);
  fdec := fun m k => rnd (IZR m / IZR (10 ^ Z.of_nat k))%R;
  math_pi := rnd PI;
  int_of := fun r => Returned (Rtrunc r)
|}.

(** *** Machine reading: binary64 *)

(** The integer [z] rounded to the nearest binary64 value.  Python raises
    [OverflowError] where this yields an infinity (beyond 2^1024). *)
Definition float_of_int (z : Z) : float :=
  SF2Prim (binary_normalize FloatOps.prec FloatOps.emax z 0 false).

(** [int(f)] for a binary64 value. *)
Definition float_int_of (f : float) : result Z :=
  match Prim2SF f with
  | S754_nan => Raised ValueError
  | S754_infinity _ => Raised OverflowError
  | S754_zero _ => Returned 0
  | S754_finite sign m e =>
      let a := if 0 <=? e then Z.shiftl (Z.pos m) e
               else Z.shiftr (Z.pos m) (- e) in
      Returned (if sign then - a else a)
  end.

(** A literal [m * 10^-k] is the quotient of two integers that binary64
    holds exactly (for the literals of the simulator), so the rounded
    quotient is the binary64 value nearest to the literal. *)
#[export] Instance PyFloat_binary64 : PyFloat float := {
  fadd := PrimFloat.add;
  fsub := PrimFloat.sub;
  fmul := PrimFloat.mul;
  fdiv := PrimFloat.div;
  fge := fun a b => PrimFloat.leb b a;
  of_int := float_of_int;
  fdec := fun m k =>
    PrimFloat.div (float_of_int m) (float_of_int (10 ^ Z.of_nat k));
  math_pi := 0x1.921fb54442d18p+1%float;
  int_of := float_int_of
}.

(** ** Python built-ins on strings and integers *)

(** Lowercase hexadecimal digits of a natural number, most significant
    first; ["0"] for zero. *)
Definition hex_digits (n : N) : string :=
  HexadecimalString.NilEmpty.string_of_uint (N.to_hex_uint n).

(** [hex(n)] *)
Definition hex (n : Z) : string :=
  if n <? 0 then "-0x" ++ hex_digits (Z.to_N (- n))
  else "0x" ++ hex_digits (Z.to_N n).

(** [s[n:]] *)
Fixpoint slice_from (n : nat) (s : string) : string :=
  match n, s with
  | O, _ => s
  | S n', String _ r => slice_from n' r
  | S _, EmptyString => EmptyString
  end.

Definition hex_digit (c : ascii) (d : Hexadecimal.uint) : option Hexadecimal.uint :=
  match c with
  | "0" => Some (Hexadecimal.D0 d) | "1" => Some (Hexadecimal.D1 d)
  | "2" => Some (Hexadecimal.D2 d) | "3" => Some (Hexadecimal.D3 d)
  | "4" => Some (Hexadecimal.D4 d) | "5" => Some (Hexadecimal.D5 d)
  | "6" => Some (Hexadecimal.D6 d) | "7" => Some (Hexadecimal.D7 d)
  | "8" => Some (Hexadecimal.D8 d) | "9" => Some (Hexadecimal.D9 d)
  | "a" | "A" => Some (Hexadecimal.Da d)
  | "b" | "B" => Some (Hexadecimal.Db d)
  | "c" | "C" => Some (Hexadecimal.Dc d)
  | "d" | "D" => Some (Hexadecimal.Dd d)
  | "e" | "E" => Some (Hexadecimal.De d)
  | "f" | "F" => Some (Hexadecimal.Df d)
  | _ => None
  end%char.

Fixpoint hex_uint_of_string (s : string) : option Hexadecimal.uint :=
  match s with
  | EmptyString => Some Hexadecimal.Nil
  | String c r =>
      match hex_uint_of_string r with
      | Some d => hex_digit c d
      | None => None
      end
  end.

(** [int(s, 16)] on a string of hexadecimal digits of either case, the
    shape of every address of the simulator.  The empty string and any
    other character raise [ValueError]; the sign, [0x] prefix, underscores
    and surrounding blanks that [int] tolerates as well are outside this
    model. *)
Definition int16 (s : string) : result Z :=
  match s with
  | EmptyString => Raised ValueError
  | _ =>
      match hex_uint_of_string s with
      | Some d => Returned (Z.of_N (N.of_hex_uint d))
      | None => Raised ValueError
      end
  end.

(** ** The wire protocol (dotbot.protocol, dotbot.hdlc) *)

Module protocol.

(** Modelled from the spec: the enumerations [ApplicationType] and
    [PayloadType] of dotbot.protocol are not part of the simulator's file;
    the members it names are kept, every other member is [Other*]. *)
Inductive ApplicationType : Type :=
| SailBot
| OtherApplication (tag : Z).

Inductive PayloadType : Type :=
| CMD_MOVE_RAW
| SAILBOT_DATA
| ADVERTISEMENT
| OtherPayload (tag : Z).

Definition PayloadType_eqb (a b : PayloadType) : bool :=
  match a, b with
  | CMD_MOVE_RAW, CMD_MOVE_RAW => true
  | SAILBOT_DATA, SAILBOT_DATA => true
  | ADVERTISEMENT, ADVERTISEMENT => true
  | OtherPayload m, OtherPayload n => m =? n
  | _, _ => false
  end.

Record ProtocolHeader : Type := mkProtocolHeader {
  destination : Z;
  source : Z;
  swarm_id : Z;
  application : ApplicationType;
  version : Z
}.

(** Modelled from the spec: the payload shapes Telemetry{heading, latitude,
    longitude, windAngle}, Advertisement{} and MoveCommand{leftX, rightY};
    [OtherValues] is any payload object without [left_x] and [right_y]. *)
Inductive PayloadValues : Type :=
| SailBotData (direction latitude longitude wind_angle : Z)
| Advertisement
| CommandMoveRaw (left_x right_y : Z)
| OtherValues.

Record ProtocolPayload : Type := mkProtocolPayload {
  header : ProtocolHeader;
  payload_type : PayloadType;
  values : PayloadValues
}.

(** [values.left_x] and [values.right_y]: an object without the attribute
    raises [AttributeError]. *)
Definition left_x (v : PayloadValues) : result Z :=
  match v with
  | CommandMoveRaw lx _ => Returned lx
  | _ => Raised AttributeError
  end.

Definition right_y (v : PayloadValues) : result Z :=
  match v with
  | CommandMoveRaw _ ry => Returned ry
  | _ => Raised AttributeError
  end.

End protocol.

(** What the simulator imports and does not define: the default addresses,
    the protocol version and the frame codec.  They are parameters of the
    development; every result below holds for any choice of them. *)
Class Link : Type := {
  GATEWAY_ADDRESS_DEFAULT : string;
  SWARM_ID_DEFAULT : string;
  PROTOCOL_VERSION : Z;
  (** [ProtocolPayload.to_bytes] *)
  to_bytes : protocol.ProtocolPayload -> result (list Byte.byte);
  (** [ProtocolPayload.from_bytes] *)
  from_bytes : list Byte.byte -> result protocol.ProtocolPayload;
  hdlc_encode : list Byte.byte -> list Byte.byte;
  hdlc_decode : list Byte.byte -> result (list Byte.byte)
}.

(** ** The vehicle: class SailBotSim *)

Section Vehicle.

Context {F : Type} {PF : PyFloat F} {L : Link}.

(** Attributes assigned once from literals in [__init__] and read-only
    afterwards: the parameters of the coordinate transform. *)
Definition earth_radius_km : Z := 6371.
Definition origin_coord_latitude : F := fdec 48825908 6.
Definition origin_coord_longitude : F := fdec 2406433 6.
Definition cos_phi_0 : F := fdec 658139837 9.

Record SailBotSim : Type := mkSailBotSim {
  address : string;
  true_wind_angle : Z;
  latitude : F;
  longitude : F;
  wind_angle : Z;
  direction : Z;
  x : F;
  y : F;
  speed : Z;
  ang_speed : Z;
  rudder_slider : Z;
  sail_slider : Z;
  controller : string
}.

(** [convert_cartesian_to_geographical(self, x, y)] *)
Definition convert_cartesian_to_geographical (x0 y0 : F) : F * F :=
  let lat :=
    fadd (fdiv (fdiv (fmul y0 (fdec 180 3)) math_pi) (of_int earth_radius_km))
         origin_coord_latitude in
  let lon :=
    fadd (fdiv (fdiv (fdiv (fmul x0 (fdec 180 3)) math_pi) cos_phi_0)
               (of_int earth_radius_km))
         origin_coord_longitude in
  (lat, lon).

(** [convert_geographical_to_cartesian(self, latitude, longitude)] *)
Definition convert_geographical_to_cartesian (lat lon : F) : F * F :=
  let x0 :=
    fdiv (fmul (fmul (fmul (fsub lon origin_coord_longitude)
                           (of_int earth_radius_km)) cos_phi_0) math_pi)
         (fdec 180 3) in
  let y0 :=
    fdiv (fmul (fmul (fsub lat origin_coord_latitude)
                     (of_int earth_radius_km)) math_pi)
         (fdec 180 3) in
  (x0, y0).

(** [abs(a - b) <= tol], and the round trip from geographical coordinates
    to cartesian ones and back within [tol] on both coordinates. *)
Definition close (tol a b : F) : bool :=
  fge tol (fsub a b) && fge tol (fsub b a).

Definition round_trip_close (tol lat lon : F) : bool :=
  let xy := convert_geographical_to_cartesian lat lon in
  let ll := convert_cartesian_to_geographical (fst xy) (snd xy) in
  close tol (fst ll) lat && close tol (snd ll) lon.

(** [SailBotSim(address)] *)
Definition init (addr : string) : SailBotSim :=
  let lat := fdec 48832313 6 in
  let lon := fdec 2412689 6 in
  let xy := convert_geographical_to_cartesian lat lon in
  {| address := addr;
     true_wind_angle := 30;
     latitude := lat;
     longitude := lon;
     wind_angle := 0;
     direction := 0;
     x := fst xy;
     y := snd xy;
     speed := 0;
     ang_speed := 0;
     rudder_slider := 0;
     sail_slider := 0;
     controller := "MANUAL" |}.

(** [state_space_model(self)]: the statements in order, each on the object
    left by the previous one. *)
Definition state_space_model (s : SailBotSim) : SailBotSim :=
  let x1 := fadd (x s) (of_int (rudder_slider s)) in
  let y1 := fadd (y s) (of_int (sail_slider s)) in
  let ll := convert_cartesian_to_geographical x1 y1 in
  let d1 := (direction s + 10) mod 360 in
  let w1 := (- d1 + true_wind_angle s) mod 360 in
  {| address := address s;
     true_wind_angle := true_wind_angle s;
     latitude := fst ll;
     longitude := snd ll;
     wind_angle := w1;
     direction := d1;
     x := x1;
     y := y1;
     speed := speed s;
     ang_speed := ang_speed s;
     rudder_slider := rudder_slider s;
     sail_slider := sail_slider s;
     controller := controller s |}.

Definition set_controller (c : string) (s : SailBotSim) : SailBotSim :=
  {| address := address s;
     true_wind_angle := true_wind_angle s;
     latitude := latitude s;
     longitude := longitude s;
     wind_angle := wind_angle s;
     direction := direction s;
     x := x s;
     y := y s;
     speed := speed s;
     ang_speed := ang_speed s;
     rudder_slider := rudder_slider s;
     sail_slider := sail_slider s;
     controller := c |}.

Definition set_rudder_slider (v : Z) (s : SailBotSim) : SailBotSim :=
  {| address := address s;
     true_wind_angle := true_wind_angle s;
     latitude := latitude s;
     longitude := longitude s;
     wind_angle := wind_angle s;
     direction := direction s;
     x := x s;
     y := y s;
     speed := speed s;
     ang_speed := ang_speed s;
     rudder_slider := v;
     sail_slider := sail_slider s;
     controller := controller s |}.

Definition set_sail_slider (v : Z) (s : SailBotSim) : SailBotSim :=
  {| address := address s;
     true_wind_angle := true_wind_angle s;
     latitude := latitude s;
     longitude := longitude s;
     wind_angle := wind_angle s;
     direction := direction s;
     x := x s;
     y := y s;
     speed := speed s;
     ang_speed := ang_speed s;
     rudder_slider := rudder_slider s;
     sail_slider := v;
     controller := controller s |}.

(** The [header] property. *)
Definition header (s : SailBotSim) : result protocol.ProtocolHeader :=
  dst <- int16 GATEWAY_ADDRESS_DEFAULT ;;
  src <- int16 (address s) ;;
  swarm <- int16 SWARM_ID_DEFAULT ;;
  Returned {| protocol.destination := dst;
              protocol.source := src;
              protocol.swarm_id := swarm;
              protocol.application := protocol.SailBot;
              protocol.version := PROTOCOL_VERSION |}.

(** [encode_serial_output(self)] *)
Definition encode_serial_output (s : SailBotSim) : result (list Byte.byte) :=
  h <- header s ;;
  lat <- int_of (fmul (latitude s) (fdec 1000000 0)) ;;
  lon <- int_of (fmul (longitude s) (fdec 1000000 0)) ;;
  b <- to_bytes
         {| protocol.header := h;
            protocol.payload_type := protocol.SAILBOT_DATA;
            protocol.values :=
              protocol.SailBotData (direction s) lat lon (wind_angle s) |} ;;
  Returned (hdlc_encode b).

(** [advertise(self)] *)
Definition advertise (s : SailBotSim) : result (list Byte.byte) :=
  h <- header s ;;
  b <- to_bytes
         {| protocol.header := h;
            protocol.payload_type := protocol.ADVERTISEMENT;
            protocol.values := protocol.Advertisement |} ;;
  Returned (hdlc_encode b).

(** [update(self)]: the outcome of the call and the object after it. *)
Definition update (s : SailBotSim) : result (list Byte.byte) * SailBotSim :=
  let s1 := if String.eqb (controller s) "MANUAL"
            then state_space_model s else s in
  (encode_serial_output s1, s1).

(** [ProtocolPayload.from_bytes(hdlc_decode(frame))] *)
Definition decode_frame (frame : list Byte.byte)
  : result protocol.ProtocolPayload :=
  b <- hdlc_decode frame ;; from_bytes b.

(** [v - 256 if v > 127 else v] *)
Definition signed_slider (v : Z) : Z :=
  if 127 <? v then v - 256 else v.

(** [decode_serial_input(self, frame)].  An exception leaves the object as
    the statements before it made it. *)
Definition decode_serial_input (frame : list Byte.byte) (s : SailBotSim)
  : result unit * SailBotSim :=
  match decode_frame frame with
  | Raised e => (Raised e, s)
  | Returned payload =>
      if String.eqb (address s)
           (slice_from 2 (hex (protocol.destination (protocol.header payload))))
      then
        if protocol.PayloadType_eqb (protocol.payload_type payload)
             protocol.CMD_MOVE_RAW
        then
          let s1 := set_controller "MANUAL" s in
          match protocol.left_x (protocol.values payload) with
          | Raised e => (Raised e, s1)
          | Returned lx =>
              let s2 := set_rudder_slider (signed_slider lx) s1 in
              match protocol.right_y (protocol.values payload) with
              | Raised e => (Raised e, s2)
              | Returned ry =>
                  (Returned tt, set_sail_slider (signed_slider ry) s2)
              end
          end
        else (Returned tt, s)
      else (Returned tt, s)
  end.

(** [n] calls of [update] in a row, the frames dropped. *)
Definition ticks (n : nat) (s : SailBotSim) : SailBotSim :=
  Nat.iter n (fun t => snd (update t)) s.

(** The states a vehicle built with [SailBotSim(addr)] can be in: after any
    number of ticks, updates and decoded buffers, in any order. *)
Inductive reachable (addr : string) : SailBotSim -> Prop :=
| reach_init : reachable addr (init addr)
| reach_tick s : reachable addr s -> reachable addr (state_space_model s)
| reach_update s : reachable addr s -> reachable addr (snd (update s))
| reach_decode s frame :
    reachable addr s -> reachable addr (snd (decode_serial_input frame s)).

(** The position held twice agrees: latitude and longitude are what the
    transform makes of [x] and [y]. *)
Definition consistent (s : SailBotSim) : Prop :=
  (latitude s, longitude s) = convert_cartesian_to_geographical (x s) (y s).

(** The three assignments of [decode_serial_input] for a move command. *)
Definition apply_move (lx ry : Z) (s : SailBotSim) : SailBotSim :=
  set_sail_slider (signed_slider ry)
    (set_rudder_slider (signed_slider lx) (set_controller "MANUAL" s)).

(** What [run] assigns of a vehicle, and what [write] assigns. *)
Definition pose (s : SailBotSim) : F * F * F * F * Z * Z :=
  (x s, y s, latitude s, longitude s, direction s, wind_angle s).

Definition controls (s : SailBotSim) : string * string * Z * Z :=
  (address s, controller s, rudder_slider s, sail_slider s).

End Vehicle.

Arguments SailBotSim F : clear implicits.

(** ** The fake serial interface: class SailBotSimSerialInterface *)

Section Interface.

Context {F : Type} {PF : PyFloat F} {L : Link}.

(** [delta_t = 0.5] *)
Definition delta_t : F := fdec 5 1.

(** The calls made to [callback], oldest first: each one receives a single
    byte, [byte.to_bytes(length=1, byteorder="little")]. *)
Definition sink : Type := list (list Byte.byte).

Definition send (bs : list Byte.byte) (out : sink) : sink :=
  (out ++ map (fun b => [b]) bs)%list.

(** The state the thread works on: the vehicles of [self.sailbots], the
    calls made to [self.callback] so far, the local [next_time] of [run],
    and whether an exception has ended the thread. *)
Record SailBotSimSerialInterface : Type := mkInterface {
  sailbots : list (SailBotSim F);
  callback : sink;
  next_time : F;
  ended : option exn
}.

(** The first loop of [run]: every vehicle advertises, byte by byte. *)
Fixpoint advertise_all (bots : list (SailBotSim F)) (out : sink)
  : result unit * sink :=
  match bots with
  | [] => (Returned tt, out)
  | b :: rest =>
      match advertise b with
      | Raised e => (Raised e, out)
      | Returned bs => advertise_all rest (send bs out)
      end
  end.

(** The body of [if current_time >= next_time], before the assignment to
    [next_time]: every vehicle is updated and its frame sent byte by byte.
    An exception leaves the vehicles after it untouched. *)
Fixpoint update_all (bots : list (SailBotSim F)) (out : sink)
  : result unit * (list (SailBotSim F) * sink) :=
  match bots with
  | [] => (Returned tt, ([], out))
  | b :: rest =>
      match update b with
      | (Raised e, b') => (Raised e, (b' :: rest, out))
      | (Returned bs, b') =>
          let '(r, (rest', out')) := update_all rest (send bs out) in
          (r, (b' :: rest', out'))
      end
  end.

(** [__init__] followed by the start of [run], up to the [while]: the
    fleet is one vehicle, it advertises, and [next_time] is set from the
    clock reading [now]. *)
Definition start (now : F) : SailBotSimSerialInterface :=
  let bots := [init "1234567890123456"] in
  match advertise_all bots [] with
  | (Raised e, out) =>
      {| sailbots := bots; callback := out; next_time := now;
         ended := Some e |}
  | (Returned _, out) =>
      {| sailbots := bots; callback := out;
         next_time := fadd now delta_t; ended := None |}
  end.

(** One turn of [while True], with [current_time] the reading of
    [time.time()]. *)
Definition loop_iteration (current_time : F) (d : SailBotSimSerialInterface)
  : SailBotSimSerialInterface :=
  match ended d with
  | Some _ => d
  | None =>
      if fge current_time (next_time d) then
        match update_all (sailbots d) (callback d) with
        | (Raised e, (bots, out)) =>
            {| sailbots := bots; callback := out;
               next_time := next_time d; ended := Some e |}
        | (Returned _, (bots, out)) =>
            {| sailbots := bots; callback := out;
               next_time := fadd current_time delta_t; ended := None |}
        end
      else d
  end.

(** The loop of [write(self, bytes_)] over the vehicles: the first
    exception ends it. *)
Fixpoint write_all (bytes_ : list Byte.byte) (bots : list (SailBotSim F))
  : result unit * list (SailBotSim F) :=
  match bots with
  | [] => (Returned tt, [])
  | b :: rest =>
      match decode_serial_input bytes_ b with
      | (Raised e, b') => (Raised e, b' :: rest)
      | (Returned _, b') =>
          let (r, rest') := write_all bytes_ rest in (r, b' :: rest')
      end
  end.

(** [write(self, bytes_)], called from outside the thread: its outcome goes
    to the caller, the vehicles are shared with [run].  Besides [__init__]
    and [run] it is the only method of the class. *)
Definition write (bytes_ : list Byte.byte) (d : SailBotSimSerialInterface)
  : result unit * SailBotSimSerialInterface :=
  let (r, bots) := write_all bytes_ (sailbots d) in
  (r, {| sailbots := bots; callback := callback d;
         next_time := next_time d; ended := ended d |}).

(** The writes of a list of buffers, one after the other. *)
Definition writes (bufs : list (list Byte.byte))
    (d : SailBotSimSerialInterface) : SailBotSimSerialInterface :=
  fold_left (fun d' bs => snd (write bs d')) bufs d.

(** The turns of the loop for a list of clock readings, oldest first. *)
Definition run_loop (clock : list F) (d : SailBotSimSerialInterface)
  : SailBotSimSerialInterface :=
  fold_left (fun d' t => loop_iteration t d') clock d.

(** What happens to a started interface: the thread reads the clock and
    runs one turn of its loop, or a caller writes a buffer. *)
Inductive event : Type :=
| Clock (current_time : F)
| Write (bytes_ : list Byte.byte).

Definition step (d : SailBotSimSerialInterface) (ev : event)
  : SailBotSimSerialInterface :=
  match ev with
  | Clock t => loop_iteration t d
  | Write bs => snd (write bs d)
  end.

Definition run_events (evs : list event) (d : SailBotSimSerialInterface)
  : SailBotSimSerialInterface :=
  fold_left step evs d.

(** Every call to the callback carried one byte. *)
Definition one_byte_calls (out : sink) : Prop :=
  Forall (fun c => List.length c = 1%nat) out.

End Interface.

Arguments SailBotSimSerialInterface F : clear implicits.
Arguments event F : clear implicits.

(** ** A concrete link to run the model on

    A link with a plain layout, standing in for the imported codec where a
    statement is evaluated on an example: a body is the destination on
    eight bytes, least significant first, one byte for the payload type,
    then the values; a frame is the body between two flag bytes.  It is not
    the codec of dotbot. *)

Module demo.

Definition byte_of (v : Z) : Byte.byte :=
  match Byte.of_N (Z.to_N (v mod 256)) with
  | Some b => b
  | None => Byte.x00
  end.

Definition value_of (b : Byte.byte) : Z := Z.of_N (Byte.to_N b).

Fixpoint le_bytes (n : nat) (v : Z) : list Byte.byte :=
  match n with
  | O => []
  | S n' => byte_of v :: le_bytes n' (v / 256)
  end.

Fixpoint le_value (bs : list Byte.byte) : Z :=
  match bs with
  | [] => 0
  | b :: rest => value_of b + 256 * le_value rest
  end.

Definition type_tag (t : protocol.PayloadType) : Z :=
  match t with
  | protocol.CMD_MOVE_RAW => 0
  | protocol.ADVERTISEMENT => 4
  | protocol.SAILBOT_DATA => 10
  | protocol.OtherPayload n => n
  end.

Definition values_bytes (v : protocol.PayloadValues) : list Byte.byte :=
  match v with
  | protocol.SailBotData d la lo w =>
      (le_bytes 2 d ++ le_bytes 4 la ++ le_bytes 4 lo ++ le_bytes 2 w)%list
  | protocol.Advertisement => []
  | protocol.CommandMoveRaw lx ry => [byte_of lx; byte_of ry]
  | protocol.OtherValues => []
  end.

Definition to_bytes (p : protocol.ProtocolPayload) : result (list Byte.byte) :=
  Returned
    (le_bytes 8 (protocol.destination (protocol.header p))
     ++ byte_of (type_tag (protocol.payload_type p))
     :: values_bytes (protocol.values p))%list.

Definition header_to (dst : Z) : protocol.ProtocolHeader :=
  {| protocol.destination := dst;
     protocol.source := 0;
     protocol.swarm_id := 0;
     protocol.application := protocol.SailBot;
     protocol.version := 1 |}.

Definition from_bytes (body : list Byte.byte)
  : result protocol.ProtocolPayload :=
  if (List.length body <? 9)%nat then Raised (CodecError 2)
  else
    let h := header_to (le_value (firstn 8 body)) in
    match skipn 8 body with
    | Byte.x00 :: lx :: ry :: [] =>
        Returned (protocol.mkProtocolPayload h protocol.CMD_MOVE_RAW
                    (protocol.CommandMoveRaw (value_of lx) (value_of ry)))
    | Byte.x04 :: [] =>
        Returned (protocol.mkProtocolPayload h protocol.ADVERTISEMENT
                    protocol.Advertisement)
    | Byte.x00 :: _ | Byte.x04 :: _ => Raised (CodecError 2)
    | t :: _ =>
        Returned (protocol.mkProtocolPayload h
                    (protocol.OtherPayload (value_of t)) protocol.OtherValues)
    | [] => Raised (CodecError 2)
    end.

Definition hdlc_encode (body : list Byte.byte) : list Byte.byte :=
  (Byte.x7e :: body ++ [Byte.x7e])%list.

Definition hdlc_decode (frame : list Byte.byte) : result (list Byte.byte) :=
  match frame with
  | Byte.x7e :: rest =>
      match List.rev rest with
      | Byte.x7e :: body => Returned (List.rev body)
      | _ => Raised (CodecError 1)
      end
  | _ => Raised (CodecError 1)
  end.

#[export] Instance link : Link := {
  GATEWAY_ADDRESS_DEFAULT := "0000000000000000";
  SWARM_ID_DEFAULT := "0000";
  PROTOCOL_VERSION := 1;
  to_bytes := to_bytes;
  from_bytes := from_bytes;
  hdlc_encode := hdlc_encode;
  hdlc_decode := hdlc_decode
}.

(** A move command for the vehicle "1234567890123456" with [left_x = 200]
    and [right_y = 50]. *)
Definition move_frame : list Byte.byte :=
  [Byte.x7e; Byte.x56; Byte.x34; Byte.x12; Byte.x90; Byte.x78; Byte.x56;
   Byte.x34; Byte.x12; Byte.x00; Byte.xc8; Byte.x32; Byte.x7e].

(** The same command for another vehicle, "1234567890123457". *)
Definition other_frame : list Byte.byte :=
  [Byte.x7e; Byte.x57; Byte.x34; Byte.x12; Byte.x90; Byte.x78; Byte.x56;
   Byte.x34; Byte.x12; Byte.x00; Byte.xc8; Byte.x32; Byte.x7e].

(** A frame cut short: the closing flag is missing. *)
Definition truncated_frame : list Byte.byte :=
  [Byte.x7e; Byte.x56; Byte.x34; Byte.x12].

(** A move command for destination 0xabcd. *)
Definition abcd_frame : list Byte.byte :=
  [Byte.x7e; Byte.xcd; Byte.xab; Byte.x00; Byte.x00; Byte.x00; Byte.x00;
   Byte.x00; Byte.x00; Byte.x00; Byte.xc8; Byte.x32; Byte.x7e].

(** The vehicle of the fleet, as built, and its interface started at clock
    reading 0, in binary64. *)
Definition boat : SailBotSim float := init "1234567890123456".

Definition port : SailBotSimSerialInterface float := start 0%float.

(** The same vehicle over exact reals. *)
Definition exact_boat : SailBotSim R := init "1234567890123456".

(** The payload that [move_frame] carries. *)
Definition move_payload : protocol.ProtocolPayload :=
  {| protocol.header := header_to 0x1234567890123456;
     protocol.payload_type := protocol.CMD_MOVE_RAW;
     protocol.values := protocol.CommandMoveRaw 200 50 |}.

Definition other_payload : protocol.ProtocolPayload :=
  {| protocol.header := header_to 0x1234567890123457;
     protocol.payload_type := protocol.CMD_MOVE_RAW;
     protocol.values := protocol.CommandMoveRaw 200 50 |}.

(** An advertisement addressed to the vehicle "1234567890123456". *)
Definition advert_frame : list Byte.byte :=
  [Byte.x7e; Byte.x56; Byte.x34; Byte.x12; Byte.x90; Byte.x78; Byte.x56;
   Byte.x34; Byte.x12; Byte.x04; Byte.x7e].

Definition advert_payload : protocol.ProtocolPayload :=
  {| protocol.header := header_to 0x1234567890123456;
     protocol.payload_type := protocol.ADVERTISEMENT;
     protocol.values := protocol.Advertisement |}.

(** Two more vehicles: one with the next address, one whose address is not
    a hexadecimal number. *)
Definition sister : SailBotSim float := init "1234567890123457".

Definition wreck : SailBotSim float := init "sail".

(** The frame that [update] returns for a vehicle, empty if it raises. *)
Definition frame_of (s : SailBotSim float) : list Byte.byte :=
  match fst (update s) with
  | Returned bs => bs
  | Raised _ => []
  end.

(** Fleets of two and of three vehicles, the thread live and due at 0.5. *)
Definition convoy : SailBotSimSerialInterface float :=
  {| sailbots := [boat; sister]; callback := [];
     next_time := 0.5%float; ended := None |}.

Definition stricken : SailBotSimSerialInterface float :=
  {| sailbots := [boat; wreck; sister]; callback := [];
     next_time := 0.5%float; ended := None |}.

(** The boat over exact reals with a command in its sliders. *)
Definition steered_boat : SailBotSim R :=
  set_sail_slider (-2) (set_rudder_slider 3 exact_boat).

(** A vehicle whose address is written with leading zeros, and a move
    command for destination 1 with [left_x = 200] and [right_y = 50]. *)
Definition padded : SailBotSim float := init "0000000000000001".

Definition one_frame : list Byte.byte :=
  [Byte.x7e; Byte.x01; Byte.x00; Byte.x00; Byte.x00; Byte.x00; Byte.x00;
   Byte.x00; Byte.x00; Byte.x00; Byte.xc8; Byte.x32; Byte.x7e].

Definition one_payload : protocol.ProtocolPayload :=
  {| protocol.header := header_to 1;
     protocol.payload_type := protocol.CMD_MOVE_RAW;
     protocol.values := protocol.CommandMoveRaw 200 50 |}.

(** The boat taken off "MANUAL", the telemetry frame of its state, and a
    fleet with it between two vehicles on "MANUAL". *)
Definition idle : SailBotSim float := set_controller "AUTO" boat.

Definition idle_frame : list Byte.byte :=
  [Byte.x7e; Byte.x00; Byte.x00; Byte.x00; Byte.x00; Byte.x00; Byte.x00;
   Byte.x00; Byte.x00; Byte.x0a; Byte.x00; Byte.x00; Byte.x39; Byte.x1f;
   Byte.xe9; Byte.x02; Byte.x91; Byte.xd0; Byte.x24; Byte.x00; Byte.x00;
   Byte.x00; Byte.x7e].

Definition mixed : SailBotSimSerialInterface float :=
  {| sailbots := [boat; idle; sister]; callback := [];
     next_time := 0.5%float; ended := None |}.

End demo.

(** * Properties *)

(** ** The tick *)

Section TickFacts.

Context {F : Type} {PF : PyFloat F} {L : Link}.

Lemma update_manual (s : SailBotSim F) :
  controller s = "MANUAL" ->
  update s = (encode_serial_output (state_space_model s), state_space_model s).
Proof.
  intros Hc. unfold update. rewrite Hc. reflexivity.
Qed.

Lemma update_not_manual (s : SailBotSim F) :
  controller s <> "MANUAL" ->
  update s = (encode_serial_output s, s).
Proof.
  intros Hc. unfold update.
  destruct (String.eqb_spec (controller s) "MANUAL") as [E | _].
  - contradiction.
  - reflexivity.
Qed.

(** C1. With the controller on "MANUAL", one tick moves [x] by the rudder
    slider and [y] by the sail slider, derives latitude and longitude from
    the new [x] and [y] with the cartesian-to-geographical transform, turns
    the direction to [(direction + 10) mod 360] and sets the wind angle to
    [(true_wind_angle - direction) mod 360] for the new direction; every
    other attribute keeps its value. *)
Theorem state_space_model_tick (s : SailBotSim F) :
  controller s = "MANUAL" ->
  let x1 := fadd (x s) (of_int (rudder_slider s)) in
  let y1 := fadd (y s) (of_int (sail_slider s)) in
  let d1 := (direction s + 10) mod 360 in
  snd (update s) = state_space_model s /\
  state_space_model s =
    {| address := address s;
       true_wind_angle := true_wind_angle s;
       latitude := fst (convert_cartesian_to_geographical x1 y1);
       longitude := snd (convert_cartesian_to_geographical x1 y1);
       wind_angle := (true_wind_angle s - d1) mod 360;
       direction := d1;
       x := x1;
       y := y1;
       speed := speed s;
       ang_speed := ang_speed s;
       rudder_slider := rudder_slider s;
       sail_slider := sail_slider s;
       controller := controller s |}.
Proof.
  intros Hc x1 y1 d1. split.
  - rewrite (update_manual s Hc). reflexivity.
  - unfold state_space_model. fold x1 y1 d1.
    replace (- d1 + true_wind_angle s) with (true_wind_angle s - d1) by ring.
    reflexivity.
Qed.

(** What [encode_serial_output] returns once its parts have returned. *)
Lemma encode_serial_output_returned (s : SailBotSim F) h lat lon b :
  header s = Returned h ->
  int_of (fmul (latitude s) (fdec 1000000 0)) = Returned lat ->
  int_of (fmul (longitude s) (fdec 1000000 0)) = Returned lon ->
  to_bytes
    {| protocol.header := h;
       protocol.payload_type := protocol.SAILBOT_DATA;
       protocol.values :=
         protocol.SailBotData (direction s) lat lon (wind_angle s) |}
    = Returned b ->
  encode_serial_output s = Returned (hdlc_encode b).
Proof.
  intros Hh Hlat Hlon Hb. unfold encode_serial_output.
  rewrite Hh. cbn [bind]. rewrite Hlat. cbn [bind]. rewrite Hlon. cbn [bind].
  rewrite Hb. reflexivity.
Qed.

End TickFacts.

(** ** Addresses *)

Lemma hex_uint_of_string_of_uint (d : Hexadecimal.uint) :
  hex_uint_of_string (NilEmpty.string_of_uint d) = Some d.
Proof.
  induction d; cbn [NilEmpty.string_of_uint hex_uint_of_string];
    try rewrite IHd; reflexivity.
Qed.

Lemma hex_digits_not_empty (n : N) : hex_digits n <> EmptyString.
Proof.
  unfold hex_digits. destruct n as [| p]; [discriminate |].
  cbn [N.to_hex_uint].
  pose proof (HexadecimalPos.Unsigned.to_uint_nonnil p) as Hn.
  destruct (Pos.to_hex_uint p); [congruence | discriminate ..].
Qed.

(** Reading back the digits that [hex] writes gives the number. *)
Lemma int16_hex_digits (n : N) : int16 (hex_digits n) = Returned (Z.of_N n).
Proof.
  unfold int16. pose proof (hex_digits_not_empty n) as Hne.
  destruct (hex_digits n) eqn:E; [congruence |].
  rewrite <- E. unfold hex_digits. rewrite hex_uint_of_string_of_uint.
  rewrite HexadecimalN.Unsigned.of_to. reflexivity.
Qed.

Lemma slice_hex_nonneg (n : Z) :
  0 <= n -> slice_from 2 (hex n) = hex_digits (Z.to_N n).
Proof.
  intros Hn. unfold hex.
  destruct (Z.ltb_spec n 0) as [Hlt | _]; [lia |]. reflexivity.
Qed.

(** A destination that the comparison of [decode_serial_input] accepts is
    the number the vehicle writes as the source of its own frames. *)
Lemma matching_destination_is_source (addr : string) (dst : Z) :
  0 <= dst -> addr = slice_from 2 (hex dst) -> int16 addr = Returned dst.
Proof.
  intros Hd ->. rewrite (slice_hex_nonneg dst Hd), int16_hex_digits.
  rewrite Z2N.id by assumption. reflexivity.
Qed.

(** ** Decoding a buffer *)

Section DecodeFacts.

Context {F : Type} {PF : PyFloat F} {L : Link}.

(** A buffer that the codec rejects raises out of [decode_serial_input]
    before any attribute is assigned. *)
Lemma decode_serial_input_raises (frame : list Byte.byte) (s : SailBotSim F) e :
  decode_frame frame = Raised e ->
  decode_serial_input frame s = (Raised e, s).
Proof.
  intros Hd. unfold decode_serial_input. rewrite Hd. reflexivity.
Qed.

(** Whatever the buffer, decoding assigns nothing but the controller and
    the two sliders. *)
Lemma decode_serial_input_frame (frame : list Byte.byte) (s : SailBotSim F) :
  let s' := snd (decode_serial_input frame s) in
  address s' = address s /\
  true_wind_angle s' = true_wind_angle s /\
  latitude s' = latitude s /\ longitude s' = longitude s /\
  wind_angle s' = wind_angle s /\ direction s' = direction s /\
  x s' = x s /\ y s' = y s /\
  speed s' = speed s /\ ang_speed s' = ang_speed s.
Proof.
  unfold decode_serial_input.
  destruct (decode_frame frame) as [payload | e]; cbn [snd].
  2: { repeat split. }
  destruct (String.eqb _ _); [| repeat split].
  destruct (protocol.PayloadType_eqb _ _); [| repeat split].
  destruct (protocol.left_x _); [| repeat split].
  destruct (protocol.right_y _); repeat split.
Qed.

(** A buffer that decodes to a move command whose destination is the
    one [decode_serial_input] compares equal to the vehicle's address sets
    the controller to "MANUAL" and stores [left_x] in the rudder slider and
    [right_y] in the sail slider as signed bytes: a value above 127 is
    stored less 256, a value up to 127 as it is; 200 gives -56 and 50
    gives 50. *)
Theorem decode_move_command
    (frame : list Byte.byte) (s : SailBotSim F) payload lx ry :
  decode_frame frame = Returned payload ->
  address s =
    slice_from 2 (hex (protocol.destination (protocol.header payload))) ->
  protocol.payload_type payload = protocol.CMD_MOVE_RAW ->
  protocol.values payload = protocol.CommandMoveRaw lx ry ->
  let s' := snd (decode_serial_input frame s) in
  decode_serial_input frame s =
    (Returned tt,
     set_sail_slider (if 127 <? ry then ry - 256 else ry)
       (set_rudder_slider (if 127 <? lx then lx - 256 else lx)
          (set_controller "MANUAL" s))) /\
  controller s' = "MANUAL" /\
  (127 < lx -> rudder_slider s' = lx - 256) /\
  (lx <= 127 -> rudder_slider s' = lx) /\
  (127 < ry -> sail_slider s' = ry - 256) /\
  (ry <= 127 -> sail_slider s' = ry) /\
  (lx = 200 -> rudder_slider s' = -56) /\
  (lx = 50 -> rudder_slider s' = 50) /\
  (ry = 200 -> sail_slider s' = -56) /\
  (ry = 50 -> sail_slider s' = 50).
Proof.
  intros Hd Ha Ht Hv s'.
  assert (E : decode_serial_input frame s =
    (Returned tt,
     set_sail_slider (if 127 <? ry then ry - 256 else ry)
       (set_rudder_slider (if 127 <? lx then lx - 256 else lx)
          (set_controller "MANUAL" s)))).
  { unfold decode_serial_input. rewrite Hd, <- Ha, String.eqb_refl, Ht, Hv.
    reflexivity. }
  subst s'. rewrite E. cbn [snd set_sail_slider set_rudder_slider
    set_controller controller rudder_slider sail_slider].
  split; [reflexivity |]. split; [reflexivity |].
  repeat split; intros H.
  - destruct (Z.ltb_spec 127 lx); [reflexivity | lia].
  - destruct (Z.ltb_spec 127 lx); [lia | reflexivity].
  - destruct (Z.ltb_spec 127 ry); [reflexivity | lia].
  - destruct (Z.ltb_spec 127 ry); [lia | reflexivity].
  - subst lx. reflexivity.
  - subst lx. reflexivity.
  - subst ry. reflexivity.
  - subst ry. reflexivity.
Qed.

(** C6. A buffer that decodes to a payload for another destination is a
    silent no-op: the call returns and the vehicle is as before.  The
    destination is another one when the comparison of the code fails, and
    in particular when it is not the number that the vehicle's address
    denotes. *)
Theorem decode_other_destination
    (frame : list Byte.byte) (s : SailBotSim F) payload :
  decode_frame frame = Returned payload ->
  let dst := protocol.destination (protocol.header payload) in
  address s <> slice_from 2 (hex dst) \/
  (0 <= dst /\ int16 (address s) <> Returned dst) ->
  decode_serial_input frame s = (Returned tt, s).
Proof.
  intros Hd dst Hne.
  assert (Hs : address s <> slice_from 2 (hex dst)).
  { destruct Hne as [Hne | [Hpos Hne]]; [exact Hne |].
    intros Heq. apply Hne.
    apply matching_destination_is_source; assumption. }
  unfold decode_serial_input. rewrite Hd. fold dst.
  destruct (String.eqb_spec (address s) (slice_from 2 (hex dst)));
    [contradiction | reflexivity].
Qed.

(** C7. A vehicle keeps its direction and its wind angle in [0, 360)
    through every tick, update and decoded buffer. *)
Theorem angles_in_range (addr : string) (s : SailBotSim F) :
  reachable addr s ->
  (0 <= direction s < 360) /\ (0 <= wind_angle s < 360).
Proof.
  assert (Htick : forall t : SailBotSim F,
    (0 <= direction (state_space_model t) < 360) /\
    (0 <= wind_angle (state_space_model t) < 360)).
  { intros t. cbn [state_space_model direction wind_angle].
    split; apply Z.mod_pos_bound; lia. }
  induction 1 as [| s Hr IH | s Hr IH | s frame Hr IH].
  - cbn. lia.
  - apply Htick.
  - unfold update. cbn [snd].
    destruct (String.eqb (controller s) "MANUAL"); [apply Htick | exact IH].
  - destruct (decode_serial_input_frame frame s)
      as (_ & _ & _ & _ & Hw & Hd & _).
    rewrite Hw, Hd. exact IH.
Qed.

End DecodeFacts.

(** ** The serial interface *)

Section InterfaceFacts.

Context {F : Type} {PF : PyFloat F} {L : Link}.

Lemma write_all_raises (bytes_ : list Byte.byte) e
    (b : SailBotSim F) (rest : list (SailBotSim F)) :
  decode_frame bytes_ = Raised e ->
  write_all bytes_ (b :: rest) = (Raised e, b :: rest).
Proof.
  intros Hd. cbn [write_all].
  rewrite (decode_serial_input_raises bytes_ b e Hd). reflexivity.
Qed.

(** [write] touches neither the sink, nor [next_time], nor the thread. *)
Lemma write_frame (bytes_ : list Byte.byte) (d : SailBotSimSerialInterface F) :
  callback (snd (write bytes_ d)) = callback d /\
  next_time (snd (write bytes_ d)) = next_time d /\
  ended (snd (write bytes_ d)) = ended d.
Proof.
  unfold write. destruct (write_all bytes_ (sailbots d)) as [r bots].
  repeat split.
Qed.

Lemma writes_frame (bufs : list (list Byte.byte))
    (d : SailBotSimSerialInterface F) :
  callback (writes bufs d) = callback d /\
  next_time (writes bufs d) = next_time d /\
  ended (writes bufs d) = ended d.
Proof.
  revert d. induction bufs as [| b bufs IH]; intros d.
  - repeat split.
  - unfold writes in *. cbn [fold_left].
    destruct (IH (snd (write b d))) as (Hc & Hn & He).
    destruct (write_frame b d) as (Hc' & Hn' & He').
    rewrite Hc, Hn, He, Hc', Hn', He'. repeat split.
Qed.

(** A turn of the loop at or past [next_time], on a live thread, is a pass
    over the vehicles. *)
Lemma loop_iteration_due (t : F) (d : SailBotSimSerialInterface F) :
  ended d = None ->
  fge t (next_time d) = true ->
  sailbots (loop_iteration t d) =
    fst (snd (update_all (sailbots d) (callback d))) /\
  callback (loop_iteration t d) =
    snd (snd (update_all (sailbots d) (callback d))) /\
  (fst (update_all (sailbots d) (callback d)) = Returned tt ->
   next_time (loop_iteration t d) = fadd t delta_t /\
   ended (loop_iteration t d) = None).
Proof.
  intros He Hdue. unfold loop_iteration. rewrite He, Hdue.
  destruct (update_all (sailbots d) (callback d)) as [[[] | e] [bots out]];
    cbn [fst snd sailbots callback next_time ended].
  - repeat split.
  - repeat split; discriminate.
Qed.

(** C2, as the code has it. A buffer that the codec rejects changes no
    vehicle, and [write] does not catch the exception: with a vehicle in
    the fleet it leaves [write] from the first one, the others are not
    visited, and the interface is as before. *)
Theorem write_rejected_buffer
    (bytes_ : list Byte.byte) (d : SailBotSimSerialInterface F) e :
  decode_frame bytes_ = Raised e ->
  sailbots d <> [] ->
  write bytes_ d = (Raised e, d) /\
  (forall b, In b (sailbots d) -> decode_serial_input bytes_ b = (Raised e, b)).
Proof.
  intros Hd Hne. split.
  - unfold write. destruct (sailbots d) as [| b rest] eqn:E; [congruence |].
    rewrite (write_all_raises bytes_ e b rest Hd). rewrite <- E.
    destruct d; reflexivity.
  - intros b _. apply decode_serial_input_raises. exact Hd.
Qed.

(** C3, as the code has it. A pass that fires at the reading
    [current_time] and completes sets the next due time to
    [current_time + delta_t]; a turn before the due time changes nothing. *)
Theorem next_time_after_pass (t : F) (d : SailBotSimSerialInterface F) :
  ended d = None ->
  (fge t (next_time d) = true ->
   fst (update_all (sailbots d) (callback d)) = Returned tt ->
   next_time (loop_iteration t d) = fadd t delta_t) /\
  (fge t (next_time d) = false -> loop_iteration t d = d).
Proof.
  intros He. split.
  - intros Hdue Hok.
    destruct (loop_iteration_due t d He Hdue) as (_ & _ & Hn).
    apply Hn. exact Hok.
  - intros Hnot. unfold loop_iteration. rewrite He, Hnot. reflexivity.
Qed.

(** C9, as the code has it. No call stops the loop: after any number of
    writes a live thread is still live with the same due time, and its
    next turn at or past that time is a pass over the vehicles. *)
Theorem loop_survives_writes
    (bufs : list (list Byte.byte)) (t : F) (d : SailBotSimSerialInterface F) :
  ended d = None ->
  fge t (next_time d) = true ->
  let d' := writes bufs d in
  ended d' = None /\
  next_time d' = next_time d /\
  sailbots (loop_iteration t d') =
    fst (snd (update_all (sailbots d') (callback d'))) /\
  callback (loop_iteration t d') =
    snd (snd (update_all (sailbots d') (callback d'))).
Proof.
  intros He Hdue d'.
  destruct (writes_frame bufs d) as (Hc & Hn & He').
  fold d' in Hc, Hn, He'.
  assert (Hl : ended d' = None) by (rewrite He'; exact He).
  assert (Hd : fge t (next_time d') = true) by (rewrite Hn; exact Hdue).
  destruct (loop_iteration_due t d' Hl Hd) as (Hs & Ho & _).
  repeat split; assumption.
Qed.

End InterfaceFacts.

(** ** Exact arithmetic *)

Section ExactFacts.

Context {L : Link}.

Local Open Scope R_scope.

Lemma fdec_R_nonzero (m : Z) (k : nat) :
  (m <> 0)%Z -> fdec (F := R) m k <> 0.
Proof.
  intros Hm. cbn [fdec PyFloat_R]. unfold Rdiv.
  apply Rmult_integral_contrapositive_currified.
  - apply not_0_IZR. exact Hm.
  - apply Rinv_neq_0_compat. apply not_0_IZR.
    apply Z.pow_nonzero; lia.
Qed.

(** C4. Over exact reals, going from geographical to cartesian coordinates
    and back gives the pair one started from, for every pair. *)
Theorem geographical_round_trip (lat lon : R) :
  convert_cartesian_to_geographical (F := R)
    (fst (convert_geographical_to_cartesian lat lon))
    (snd (convert_geographical_to_cartesian lat lon)) = (lat, lon).
Proof.
  unfold convert_cartesian_to_geographical, convert_geographical_to_cartesian.
  cbn [fst snd].
  pose proof PI_neq0 as Hpi.
  pose proof (fdec_R_nonzero 180 3 ltac:(lia)) as H180.
  pose proof (fdec_R_nonzero 658139837 9 ltac:(lia)) as Hcos.
  assert (Hr : IZR earth_radius_km <> 0) by (apply not_0_IZR; discriminate).
  unfold cos_phi_0, origin_coord_latitude, origin_coord_longitude.
  set (c180 := fdec 180 3) in *. set (cphi := fdec 658139837 9) in *.
  set (lat0 := fdec 48825908 6). set (lon0 := fdec 2406433 6).
  cbn [fadd fsub fmul fdiv of_int math_pi PyFloat_R].
  f_equal; field; repeat split; assumption.
Qed.

(** The other way round as well. *)
Lemma cartesian_round_trip (x0 y0 : R) :
  convert_geographical_to_cartesian (F := R)
    (fst (convert_cartesian_to_geographical x0 y0))
    (snd (convert_cartesian_to_geographical x0 y0)) = (x0, y0).
Proof.
  unfold convert_cartesian_to_geographical, convert_geographical_to_cartesian.
  cbn [fst snd].
  pose proof PI_neq0 as Hpi.
  pose proof (fdec_R_nonzero 180 3 ltac:(lia)) as H180.
  pose proof (fdec_R_nonzero 658139837 9 ltac:(lia)) as Hcos.
  assert (Hr : IZR earth_radius_km <> 0) by (apply not_0_IZR; discriminate).
  unfold cos_phi_0, origin_coord_latitude, origin_coord_longitude.
  set (c180 := fdec 180 3) in *. set (cphi := fdec 658139837 9) in *.
  set (lat0 := fdec 48825908 6). set (lon0 := fdec 2406433 6).
  cbn [fadd fsub fmul fdiv of_int math_pi PyFloat_R].
  f_equal; field; repeat split; assumption.
Qed.

Local Close Scope R_scope.

(** Ticks with both sliders at rest. *)
Lemma ticks_at_rest (n : nat) (s : SailBotSim R) :
  controller s = "MANUAL" ->
  rudder_slider s = 0 ->
  sail_slider s = 0 ->
  0 <= direction s < 360 ->
  controller (ticks n s) = "MANUAL" /\
  rudder_slider (ticks n s) = 0 /\
  sail_slider (ticks n s) = 0 /\
  x (ticks n s) = x s /\
  y (ticks n s) = y s /\
  direction (ticks n s) = (direction s + 10 * Z.of_nat n) mod 360.
Proof.
  intros Hc Hr Hs Hd. induction n as [| n IH].
  - unfold ticks. cbn [Nat.iter nat_rect]. repeat split; try assumption.
    rewrite Z.mod_small; lia.
  - destruct IH as (Hc' & Hr' & Hs' & Hx & Hy & Hdir).
    unfold ticks in *. rewrite Nat.iter_succ.
    set (t := Nat.iter n (fun t => snd (update t)) s) in *.
    rewrite (update_manual t Hc'). cbn [snd].
    cbn [state_space_model controller rudder_slider sail_slider x y direction].
    rewrite Hr', Hs', Hx, Hy, Hdir.
    repeat split; try assumption.
    + cbn [fadd of_int PyFloat_R]. ring.
    + cbn [fadd of_int PyFloat_R]. ring.
    + rewrite Zplus_mod_idemp_l. f_equal. lia.
Qed.

(** C8. From a state on "MANUAL" with both sliders at 0 and a direction in
    [0, 360), 36 ticks bring the direction back to where it started and
    leave [x] and [y] as they were; no smaller positive number of ticks
    brings the direction back. *)
Theorem thirty_six_ticks (s : SailBotSim R) :
  controller s = "MANUAL" ->
  rudder_slider s = 0 ->
  sail_slider s = 0 ->
  0 <= direction s < 360 ->
  direction (ticks 36 s) = direction s /\
  x (ticks 36 s) = x s /\
  y (ticks 36 s) = y s /\
  (forall k : nat, (0 < k < 36)%nat -> direction (ticks k s) <> direction s).
Proof.
  intros Hc Hr Hs Hd.
  destruct (ticks_at_rest 36 s Hc Hr Hs Hd) as (_ & _ & _ & Hx & Hy & Hdir).
  repeat split; try assumption.
  - rewrite Hdir. change (10 * Z.of_nat 36) with (1 * 360).
    rewrite Z.mod_add by lia. apply Z.mod_small. exact Hd.
  - intros k Hk.
    destruct (ticks_at_rest k s Hc Hr Hs Hd) as (_ & _ & _ & _ & _ & Hk').
    rewrite Hk'. intros Heq.
    pose proof (Z.div_mod (direction s + 10 * Z.of_nat k) 360 ltac:(lia)) as E.
    rewrite Heq in E. lia.
Qed.

End ExactFacts.

(** ** Rounded arithmetic

    The round trip of the coordinates when every operation and every
    literal is rounded.  The rounding [rnd] is any function whose error on
    a real [z] of magnitude up to [B] is at most [u * |z| + eta], the
    standard model of floating-point arithmetic: binary64 rounds to nearest
    with [u] = 2^-53 and [eta] = 2^-1075 up to [B] near 1.8e308. *)

Section RoundedFacts.

Variables (rnd : R -> R) (u eta B : R).

Hypothesis u_bound : (0 <= u <= 1e-15)%R.
Hypothesis eta_bound : (0 <= eta <= 1e-15)%R.
Hypothesis B_bound : (100000000 <= B)%R.
Hypothesis rnd_spec :
  forall z : R, (Rabs z <= B -> Rabs (rnd z - z) <= u * Rabs z + eta)%R.

Local Open Scope R_scope.

(** Rounding a value known within [e] of a reference of magnitude [M]. *)
Lemma rnd_err (z z0 e M E : R) :
  Rabs (z - z0) <= e -> Rabs z0 <= M -> M + e <= B ->
  e + u * (M + e) + eta <= E ->
  Rabs (rnd z - z0) <= E.
Proof.
  intros Hz Hz0 HB HE.
  assert (Hzb : Rabs z <= M + e).
  { replace z with (z0 + (z - z0)) by ring.
    eapply Rle_trans; [apply Rabs_triang |]. lra. }
  pose proof (rnd_spec z ltac:(lra)) as Hr.
  replace (rnd z - z0) with ((rnd z - z) + (z - z0)) by ring.
  eapply Rle_trans; [apply Rabs_triang |].
  assert (u * Rabs z <= u * (M + e)) by (apply Rmult_le_compat_l; lra).
  lra.
Qed.

(** A rounded product by [c], with [|c| <= C]. *)
Lemma mul_step (z z0 c e M C E M' : R) :
  Rabs (z - z0) <= e -> Rabs z0 <= M -> Rabs c <= C ->
  e * C + u * (M * C + e * C) + eta <= E ->
  M * C <= M' -> M * C + e * C <= B ->
  Rabs (rnd (z * c) - z0 * c) <= E /\ Rabs (z0 * c) <= M'.
Proof.
  intros Hz Hz0 Hc HE HM HB.
  pose proof (Rabs_pos (z - z0)). pose proof (Rabs_pos z0).
  pose proof (Rabs_pos c).
  assert (Ha : Rabs (z * c - z0 * c) <= e * C).
  { replace (z * c - z0 * c) with ((z - z0) * c) by ring.
    rewrite Rabs_mult. apply Rmult_le_compat; lra. }
  assert (Hb : Rabs (z0 * c) <= M * C).
  { rewrite Rabs_mult. apply Rmult_le_compat; lra. }
  split; [| lra].
  apply (rnd_err _ _ (e * C) (M * C)); assumption.
Qed.

(** A rounded quotient by [c], with [Cl <= |c|]. *)
Lemma div_step (z z0 c e M Cl E M' : R) :
  Rabs (z - z0) <= e -> Rabs z0 <= M -> 0 < Cl -> Cl <= Rabs c ->
  e / Cl + u * (M / Cl + e / Cl) + eta <= E ->
  M / Cl <= M' -> M / Cl + e / Cl <= B ->
  Rabs (rnd (z / c) - z0 / c) <= E /\ Rabs (z0 / c) <= M'.
Proof.
  intros Hz Hz0 Hl Hc HE HM HB. unfold Rdiv in *.
  assert (Hn : c <> 0).
  { intros ->. rewrite Rabs_R0 in Hc. lra. }
  apply (mul_step z z0 (/ c) e M (/ Cl)); try assumption.
  rewrite Rabs_inv. apply Rinv_le_contravar; assumption.
Qed.

(** A rounded constant stays next to the constant. *)
Lemma rnd_const (c lo hi : R) :
  0 < c <= 100000 ->
  lo <= c - 2e-10 -> c + 2e-10 <= hi ->
  lo <= rnd c <= hi /\ Rabs (rnd c - c) <= 2e-10.
Proof.
  intros Hc Hlo Hhi.
  assert (Ha : Rabs c = c) by (apply Rabs_right; lra).
  pose proof (rnd_spec c ltac:(rewrite Ha; lra)) as Hr. rewrite Ha in Hr.
  assert (Hu : u * c <= 1e-15 * c) by (apply Rmult_le_compat_r; lra).
  assert (Hk : Rabs (rnd c - c) <= 2e-10) by lra.
  pose proof (Rle_abs (rnd c - c)). pose proof (Rle_abs (- (rnd c - c))) as Hm.
  rewrite Rabs_Ropp in Hm. split; [lra | exact Hk].
Qed.

Lemma abs_between (c lo hi : R) :
  0 < lo -> lo <= c <= hi -> lo <= Rabs c <= hi.
Proof. intros Hl Hc. rewrite Rabs_right by lra. exact Hc. Qed.

(** With rounded arithmetic the round trip of a pair within 360 degrees of
    the origin of the transform comes back within 1e-9 on each
    coordinate. *)
Theorem rounded_round_trip (lat lon : R) :
  Rabs (lat - 48825908 / 1000000) <= 360 ->
  Rabs (lon - 2406433 / 1000000) <= 360 ->
  let xy :=
    convert_geographical_to_cartesian (PF := PyFloat_rounded rnd) lat lon in
  let ll :=
    convert_cartesian_to_geographical (PF := PyFloat_rounded rnd)
      (fst xy) (snd xy) in
  Rabs (fst ll - lat) <= 1e-9 /\ Rabs (snd ll - lon) <= 1e-9.
Proof.
  intros Hlat Hlon.
  unfold convert_cartesian_to_geographical, convert_geographical_to_cartesian.
  cbn [fst snd].
  unfold cos_phi_0, origin_coord_latitude, origin_coord_longitude,
    earth_radius_km.
  cbn [fadd fsub fmul fdiv of_int fdec math_pi PyFloat_rounded].
  change (10 ^ Z.of_nat 3)%Z with 1000%Z.
  change (10 ^ Z.of_nat 6)%Z with 1000000%Z.
  change (10 ^ Z.of_nat 9)%Z with 1000000000%Z.
  destruct (rnd_const 6371 6370 6372) as [Hk _]; try lra.
  destruct (rnd_const PI (29 / 10) (41 / 10)) as [Hp _];
    try (pose proof PI2_3_2; pose proof PI_4; lra).
  destruct (rnd_const (180 / 1000) (17 / 100) (19 / 100)) as [H18 _]; try lra.
  destruct (rnd_const (658139837 / 1000000000) (65 / 100) (66 / 100))
    as [Hcp _]; try lra.
  destruct (rnd_const (48825908 / 1000000) 48 49) as [Hla Hla']; try lra.
  destruct (rnd_const (2406433 / 1000000) 2 3) as [Hlo Hlo']; try lra.
  set (Rk := rnd 6371) in *. set (pif := rnd PI) in *.
  set (c18 := rnd (180 / 1000)) in *.
  set (cphi := rnd (658139837 / 1000000000)) in *.
  set (lat0 := rnd (48825908 / 1000000)) in *.
  set (lon0 := rnd (2406433 / 1000000)) in *.
  pose proof (abs_between Rk 6370 6372 ltac:(lra) Hk) as Ak.
  pose proof (abs_between pif (29 / 10) (41 / 10) ltac:(lra) Hp) as Ap.
  pose proof (abs_between c18 (17 / 100) (19 / 100) ltac:(lra) H18) as A18.
  pose proof (abs_between cphi (65 / 100) (66 / 100) ltac:(lra) Hcp) as Acp.
  split.
  - set (D := lat - lat0).
    assert (HD : Rabs D <= (360001 / 1000)).
    { unfold D. replace (lat - lat0)
        with ((lat - 48825908 / 1000000) + (48825908 / 1000000 - lat0)) by lra.
      eapply Rle_trans; [apply Rabs_triang |].
      rewrite (Rabs_minus_sym (48825908 / 1000000)). lra. }
    assert (H0 : Rabs (rnd D - D) <= 38e-14).
    { apply (rnd_err D D 0 (360001 / 1000)); [| exact HD | lra | lra].
      unfold Rminus. rewrite Rplus_opp_r, Rabs_R0. lra. }
    destruct (mul_step _ _ Rk _ _ 6372 50e-10 2293927
                H0 HD ltac:(lra) ltac:(lra) ltac:(lra) ltac:(lra))
      as [H1 M1].
    destruct (mul_step _ _ pif _ _ (41 / 10) 32e-9 9405101
                H1 M1 ltac:(lra) ltac:(lra) ltac:(lra) ltac:(lra))
      as [H2 M2].
    destruct (div_step _ _ c18 _ _ (17 / 100) 26e-8 55324124
                H2 M2 ltac:(lra) ltac:(lra) ltac:(lra) ltac:(lra) ltac:(lra))
      as [H3 M3].
    destruct (mul_step _ _ c18 _ _ (19 / 100) 63e-9 10511584
                H3 M3 ltac:(lra) ltac:(lra) ltac:(lra) ltac:(lra))
      as [H4 M4].
    destruct (div_step _ _ pif _ _ (29 / 10) 27e-9 3624685
                H4 M4 ltac:(lra) ltac:(lra) ltac:(lra) ltac:(lra) ltac:(lra))
      as [H5 M5].
    destruct (div_step _ _ Rk _ _ 6370 51e-13 570
                H5 M5 ltac:(lra) ltac:(lra) ltac:(lra) ltac:(lra) ltac:(lra))
      as [H6 M6].
    replace (D * Rk * pif / c18 * c18 / pif / Rk) with D in H6
      by (field; repeat split; lra).
    match goal with
    | |- Rabs (rnd (?a + lat0) - lat) <= _ =>
        assert (Hz : Rabs (a + lat0 - lat) <= 51e-13)
          by (replace (a + lat0 - lat) with (a - D)
                by (unfold D; ring); exact H6)
    end.
    assert (Hb : Rabs lat <= 410).
    { replace lat with ((lat - 48825908 / 1000000) + 48825908 / 1000000) by ring.
      eapply Rle_trans; [apply Rabs_triang |].
      rewrite (Rabs_right (48825908 / 1000000)) by lra. lra. }
    apply (rnd_err _ _ 51e-13 410 _ Hz Hb); lra.
  - set (D := lon - lon0).
    assert (HD : Rabs D <= (360001 / 1000)).
    { unfold D. replace (lon - lon0)
        with ((lon - 2406433 / 1000000) + (2406433 / 1000000 - lon0)) by lra.
      eapply Rle_trans; [apply Rabs_triang |].
      rewrite (Rabs_minus_sym (2406433 / 1000000)). lra. }
    assert (H0 : Rabs (rnd D - D) <= 38e-14).
    { apply (rnd_err D D 0 (360001 / 1000)); [| exact HD | lra | lra].
      unfold Rminus. rewrite Rplus_opp_r, Rabs_R0. lra. }
    destruct (mul_step _ _ Rk _ _ 6372 50e-10 2293927
                H0 HD ltac:(lra) ltac:(lra) ltac:(lra) ltac:(lra))
      as [H1 M1].
    destruct (mul_step _ _ cphi _ _ (33 / 50) 51e-10 1513992
                H1 M1 ltac:(lra) ltac:(lra) ltac:(lra) ltac:(lra))
      as [H2 M2].
    destruct (mul_step _ _ pif _ _ (41 / 10) 29e-9 6207368
                H2 M2 ltac:(lra) ltac:(lra) ltac:(lra) ltac:(lra))
      as [H3 M3].
    destruct (div_step _ _ c18 _ _ (17 / 100) 22e-8 36513930
                H3 M3 ltac:(lra) ltac:(lra) ltac:(lra) ltac:(lra) ltac:(lra))
      as [H4 M4].
    destruct (mul_step _ _ c18 _ _ (19 / 100) 52e-9 6937647
                H4 M4 ltac:(lra) ltac:(lra) ltac:(lra) ltac:(lra))
      as [H5 M5].
    destruct (div_step _ _ pif _ _ (29 / 10) 22e-9 2392293
                H5 M5 ltac:(lra) ltac:(lra) ltac:(lra) ltac:(lra) ltac:(lra))
      as [H6 M6].
    destruct (div_step _ _ cphi _ _ (13 / 20) 40e-9 3680451
                H6 M6 ltac:(lra) ltac:(lra) ltac:(lra) ltac:(lra) ltac:(lra))
      as [H7 M7].
    destruct (div_step _ _ Rk _ _ 6370 73e-13 578
                H7 M7 ltac:(lra) ltac:(lra) ltac:(lra) ltac:(lra) ltac:(lra))
      as [H8 M8].
    replace (D * Rk * cphi * pif / c18 * c18 / pif / cphi / Rk) with D in H8
      by (field; repeat split; lra).
    match goal with
    | |- Rabs (rnd (?a + lon0) - lon) <= _ =>
        assert (Hz : Rabs (a + lon0 - lon) <= 73e-13)
          by (replace (a + lon0 - lon) with (a - D)
                by (unfold D; ring); exact H8)
    end.
    assert (Hb : Rabs lon <= 410).
    { replace lon with ((lon - 2406433 / 1000000) + 2406433 / 1000000) by ring.
      eapply Rle_trans; [apply Rabs_triang |].
      rewrite (Rabs_right (2406433 / 1000000)) by lra. lra. }
    apply (rnd_err _ _ 73e-13 410 _ Hz Hb); lra.
Qed.

End RoundedFacts.

(** ** The simulator at work: binary64 floats over the plain link *)

Section Run.

Import demo.


Example boat_cartesian :
  x boat = (0x1.c9d34e009d0fcp+8)%float /\
  y boat = (0x1.641a0c750027ep+9)%float.
Proof. vm_compute. split; reflexivity. Qed.

Example hex_examples :
  hex 255 = "0xff" /\ hex 0 = "0x0" /\ hex (-5) = "-0x5" /\
  slice_from 2 (hex 0x1234567890123456) = "1234567890123456" /\
  int16 "1234567890123456" = Returned 0x1234567890123456 /\
  int16 "Ff" = Returned 255 /\ int16 "" = Raised ValueError.
Proof. vm_compute. repeat split. Qed.

Example int_examples :
  int_of (-3.75)%float = Returned (-3) /\
  int_of 0.5%float = Returned 0 /\
  int_of 48832312.5%float = Returned 48832312 /\
  int_of infinity = Raised OverflowError /\
  int_of nan = Raised ValueError.
Proof. vm_compute. repeat split. Qed.

(** Construction sends one advertisement, byte by byte, and nothing else
    before the first pass; the first pass after half a second sends one
    telemetry frame, turns the direction to 10 and leaves the position. *)
Example first_pass :
  callback port =
    map (fun b => [b])
      [Byte.x7e; Byte.x00; Byte.x00; Byte.x00; Byte.x00; Byte.x00; Byte.x00;
       Byte.x00; Byte.x00; Byte.x04; Byte.x7e] /\
  next_time port = 0.5%float /\
  loop_iteration 0.25%float port = port /\
  let d1 := loop_iteration 0.5%float port in
  ended d1 = None /\
  map direction (sailbots d1) = [10] /\
  map wind_angle (sailbots d1) = [20] /\
  map x (sailbots d1) = [x boat] /\
  map y (sailbots d1) = [y boat] /\
  List.length (callback d1) = (11 + 23)%nat.
Proof. vm_compute. repeat split. Qed.

(** 36 ticks of the boat at rest, in binary64. *)
Example boat_thirty_six_ticks :
  direction (ticks 36 boat) = 0 /\
  x (ticks 36 boat) = x boat /\ y (ticks 36 boat) = y boat.
Proof. vm_compute. repeat split. Qed.

(** The round trip of the coordinates in binary64: exact at the position of
    the boat, and within 1e-9 on a grid of 41 x 41 points that spans two
    degrees in steps of 0.1 around the origin of the transform. *)
Example boat_round_trip :
  convert_cartesian_to_geographical (x boat) (y boat)
  = (latitude boat, longitude boat).
Proof. vm_compute. reflexivity. Qed.

Example round_trip_on_grid :
  let steps := map (fun i => Z.of_nat i - 20) (seq 0 41) in
  forallb (fun i =>
    forallb (fun j =>
      round_trip_close (fdec 1 9)
        (fadd origin_coord_latitude (fdec i 1))
        (fadd origin_coord_longitude (fdec j 1)))
      steps) steps = true.
Proof. vm_compute. reflexivity. Qed.

(** The comparison of [decode_serial_input] is on the text of the address:
    a vehicle built with the address "ABCD" sends 0xabcd as its source but
    lets a command for destination 0xabcd pass, while "abcd" takes it. *)
Example address_comparison_is_textual :
  let upper : SailBotSim float := init "ABCD" in
  let lower : SailBotSim float := init "abcd" in
  int16 (address upper) = Returned 0xabcd /\
  decode_serial_input abcd_frame upper = (Returned tt, upper) /\
  rudder_slider (snd (decode_serial_input abcd_frame lower)) = -56.
Proof. vm_compute. repeat split. Qed.

End Run.

(** ** The theorems on the vehicle of the fleet *)

Section Instances.

Import demo.

Lemma state_space_model_tick_boat :
  controller boat = "MANUAL" /\
  let x1 := fadd (x boat) (of_int (rudder_slider boat)) in
  let y1 := fadd (y boat) (of_int (sail_slider boat)) in
  let d1 := (direction boat + 10) mod 360 in
  snd (update boat) = state_space_model boat /\
  state_space_model boat =
    {| address := address boat;
       true_wind_angle := true_wind_angle boat;
       latitude := fst (convert_cartesian_to_geographical x1 y1);
       longitude := snd (convert_cartesian_to_geographical x1 y1);
       wind_angle := (true_wind_angle boat - d1) mod 360;
       direction := d1;
       x := x1;
       y := y1;
       speed := speed boat;
       ang_speed := ang_speed boat;
       rudder_slider := rudder_slider boat;
       sail_slider := sail_slider boat;
       controller := controller boat |}.
Proof.
  split; [reflexivity |].
  apply (state_space_model_tick boat). reflexivity.
Defined.

Lemma decode_move_command_boat :
  decode_frame move_frame = Returned move_payload /\
  address boat =
    slice_from 2 (hex (protocol.destination (protocol.header move_payload))) /\
  rudder_slider (snd (decode_serial_input move_frame boat)) = -56 /\
  sail_slider (snd (decode_serial_input move_frame boat)) = 50 /\
  controller (snd (decode_serial_input move_frame boat)) = "MANUAL".
Proof.
  assert (Hd : decode_frame move_frame = Returned move_payload)
    by (vm_compute; reflexivity).
  assert (Ha : address boat =
    slice_from 2 (hex (protocol.destination (protocol.header move_payload))))
    by (vm_compute; reflexivity).
  destruct (decode_move_command move_frame boat move_payload 200 50
              Hd Ha eq_refl eq_refl)
    as (_ & Hc & _ & _ & _ & Hs & Hr & _).
  split; [exact Hd |]. split; [exact Ha |].
  split; [apply Hr; reflexivity |].
  split; [apply Hs; lia | exact Hc].
Defined.

Lemma decode_other_destination_boat :
  decode_frame other_frame = Returned other_payload /\
  address boat <>
    slice_from 2 (hex (protocol.destination (protocol.header other_payload))) /\
  decode_serial_input other_frame boat = (Returned tt, boat).
Proof.
  assert (Hd : decode_frame other_frame = Returned other_payload)
    by (vm_compute; reflexivity).
  assert (Ha : address boat <>
    slice_from 2 (hex (protocol.destination (protocol.header other_payload))))
    by (vm_compute; discriminate).
  split; [exact Hd |]. split; [exact Ha |].
  apply (decode_other_destination other_frame boat other_payload Hd).
  left. exact Ha.
Defined.

Lemma angles_in_range_boat :
  let s := snd (decode_serial_input move_frame (state_space_model boat)) in
  reachable "1234567890123456" s /\
  (0 <= direction s < 360) /\ (0 <= wind_angle s < 360).
Proof.
  intros s.
  assert (Hr : reachable "1234567890123456" s).
  { apply reach_decode. apply reach_tick. apply reach_init. }
  split; [exact Hr |].
  apply (angles_in_range "1234567890123456" s Hr).
Defined.

Lemma thirty_six_ticks_boat :
  controller exact_boat = "MANUAL" /\
  rudder_slider exact_boat = 0 /\
  sail_slider exact_boat = 0 /\
  (0 <= direction exact_boat < 360) /\
  direction (ticks 36 exact_boat) = direction exact_boat /\
  x (ticks 36 exact_boat) = x exact_boat /\
  y (ticks 36 exact_boat) = y exact_boat.
Proof.
  assert (Hd : 0 <= direction exact_boat < 360) by (cbn; lia).
  destruct (thirty_six_ticks exact_boat eq_refl eq_refl eq_refl Hd)
    as (H1 & H2 & H3 & _).
  split; [reflexivity |]. split; [reflexivity |]. split; [reflexivity |].
  split; [exact Hd |]. split; [exact H1 |]. split; [exact H2 | exact H3].
Defined.

Lemma write_rejected_buffer_port :
  decode_frame truncated_frame = Raised (CodecError 1) /\
  sailbots port <> [] /\
  write truncated_frame port = (Raised (CodecError 1), port).
Proof.
  assert (Hd : decode_frame truncated_frame = Raised (CodecError 1))
    by (vm_compute; reflexivity).
  assert (Hne : sailbots port <> []) by (vm_compute; discriminate).
  split; [exact Hd |]. split; [exact Hne |].
  apply (write_rejected_buffer truncated_frame port (CodecError 1) Hd Hne).
Defined.

Lemma next_time_after_pass_port :
  ended port = None /\
  fge 2%float (next_time port) = true /\
  fst (update_all (sailbots port) (callback port)) = Returned tt /\
  next_time (loop_iteration 2%float port) = fadd 2%float delta_t.
Proof.
  assert (He : ended port = None) by (vm_compute; reflexivity).
  assert (Hdue : fge 2%float (next_time port) = true)
    by (vm_compute; reflexivity).
  assert (Hok : fst (update_all (sailbots port) (callback port)) = Returned tt)
    by (vm_compute; reflexivity).
  split; [exact He |]. split; [exact Hdue |]. split; [exact Hok |].
  apply (next_time_after_pass 2%float port He); assumption.
Defined.

Lemma loop_survives_writes_port :
  let d' := writes [move_frame; truncated_frame] port in
  ended port = None /\
  fge 1%float (next_time port) = true /\
  ended d' = None /\
  next_time d' = next_time port /\
  sailbots (loop_iteration 1%float d') =
    fst (snd (update_all (sailbots d') (callback d'))).
Proof.
  intros d'.
  assert (He : ended port = None) by (vm_compute; reflexivity).
  assert (Hdue : fge 1%float (next_time port) = true)
    by (vm_compute; reflexivity).
  destruct (loop_survives_writes [move_frame; truncated_frame] 1%float port
              He Hdue) as (H1 & H2 & H3 & _).
  split; [exact He |]. split; [exact Hdue |]. split; [exact H1 |].
  split; [exact H2 | exact H3].
Defined.

(** The rounded round trip with a rounding that stretches every value by
    one part in 10^16, at the position of the boat. *)
Lemma rounded_round_trip_boat :
  let rnd := fun z : R => (z + z * 1e-16)%R in
  let lat := (48832313 / 1000000)%R in
  let lon := (2412689 / 1000000)%R in
  let xy :=
    convert_geographical_to_cartesian (PF := PyFloat_rounded rnd) lat lon in
  let ll :=
    convert_cartesian_to_geographical (PF := PyFloat_rounded rnd)
      (fst xy) (snd xy) in
  (Rabs (fst ll - lat) <= 1e-9 /\ Rabs (snd ll - lon) <= 1e-9)%R.
Proof.
  intros rnd lat lon.
  apply (rounded_round_trip rnd 1e-15 0 100000000)%R.
  - lra.
  - lra.
  - lra.
  - intros z _. unfold rnd.
    replace (z + z * 1e-16 - z)%R with (z * 1e-16)%R by ring.
    rewrite Rabs_mult, (Rabs_right 1e-16) by lra.
    pose proof (Rabs_pos z). lra.
  - unfold lat. rewrite Rabs_right; lra.
  - unfold lon. rewrite Rabs_right; lra.
Defined.

End Instances.

(** ** Where the code departs from the intended design *)

Section Departures.

Context {F : Type} {PF : PyFloat F} {L : Link}.

(** Decoding never takes a vehicle off "MANUAL". *)
Lemma decode_keeps_manual (frame : list Byte.byte) (s : SailBotSim F) :
  controller s = "MANUAL" ->
  controller (snd (decode_serial_input frame s)) = "MANUAL".
Proof.
  intros Hc. unfold decode_serial_input.
  destruct (decode_frame frame) as [payload | e]; cbn [snd]; [| exact Hc].
  destruct (String.eqb _ _); [| exact Hc].
  destruct (protocol.PayloadType_eqb _ _); [| exact Hc].
  destruct (protocol.left_x _); [| reflexivity].
  destruct (protocol.right_y _); reflexivity.
Qed.

Lemma write_single (bytes_ : list Byte.byte) (s : SailBotSim F) :
  snd (write_all bytes_ [s]) = [snd (decode_serial_input bytes_ s)].
Proof.
  cbn [write_all]. destruct (decode_serial_input bytes_ s) as [[[] | e] s'];
    reflexivity.
Qed.

Lemma update_single (s : SailBotSim F) (out : sink) :
  fst (snd (update_all [s] out)) = [snd (update s)].
Proof.
  cbn [update_all]. destruct (update s) as [[bs | e] s']; reflexivity.
Qed.

(** On "MANUAL" a pass turns the vehicle: it is not the vehicle it was. *)
Lemma update_turns (s : SailBotSim F) :
  controller s = "MANUAL" ->
  0 <= direction s < 360 ->
  snd (update s) <> s.
Proof.
  intros Hc Hd Heq. rewrite (update_manual s Hc) in Heq. cbn [snd] in Heq.
  apply (f_equal direction) in Heq.
  cbn [state_space_model direction] in Heq.
  pose proof (Z.div_mod (direction s + 10) 360 ltac:(lia)) as E.
  rewrite Heq in E. lia.
Qed.

End Departures.

Section Counterexamples.

Import demo.

(** C2 fails on the code: [write] lets the exception of a truncated buffer
    out to its caller. *)
Lemma write_raises_on_truncated_frame :
  fst (write truncated_frame port) = Raised (CodecError 1) /\
  ~ (forall bytes_ : list Byte.byte, returns (fst (write bytes_ port))).
Proof.
  assert (E : fst (write truncated_frame port) = Raised (CodecError 1))
    by (vm_compute; reflexivity).
  split; [exact E |].
  intros H. destruct (H truncated_frame) as [u Hu].
  rewrite E in Hu. discriminate.
Qed.

(** C3 fails on the code: a pass that fires late, at reading 2 for a due
    time of 0.5, sets the next due time to 2.5 and not to 1. *)
Lemma next_time_is_not_fixed_phase :
  ended port = None /\
  next_time port = 0.5%float /\
  fge 2%float (next_time port) = true /\
  next_time (loop_iteration 2%float port) = 2.5%float /\
  fadd (next_time port) delta_t = 1%float /\
  next_time (loop_iteration 2%float port) <> fadd (next_time port) delta_t.
Proof.
  assert (E1 : next_time (loop_iteration 2%float port) = 2.5%float)
    by (vm_compute; reflexivity).
  assert (E2 : fadd (next_time port) delta_t = 1%float)
    by (vm_compute; reflexivity).
  split; [vm_compute; reflexivity |].
  split; [vm_compute; reflexivity |].
  split; [vm_compute; reflexivity |].
  split; [exact E1 |]. split; [exact E2 |].
  rewrite E1, E2. intros H.
  apply (f_equal float_int_of) in H. vm_compute in H. discriminate.
Qed.

(** C9 fails on the code: no buffer written to the interface keeps the
    loop from its next pass. *)
Lemma no_write_stops_the_loop :
  ~ (exists bytes_ : list Byte.byte,
       forall t : float,
         loop_iteration t (snd (write bytes_ port)) = snd (write bytes_ port)).
Proof.
  intros [bytes_ H]. specialize (H 1%float).
  set (d' := snd (write bytes_ port)) in *.
  destruct (write_frame bytes_ port) as (Hc & Hn & He). fold d' in Hc, Hn, He.
  assert (Hl : ended d' = None) by (rewrite He; vm_compute; reflexivity).
  assert (Hdue : fge 1%float (next_time d') = true)
    by (rewrite Hn; vm_compute; reflexivity).
  destruct (loop_iteration_due 1%float d' Hl Hdue) as (Hs & _).
  rewrite H in Hs.
  assert (Hb : sailbots d' = [snd (decode_serial_input bytes_ boat)]).
  { subst d'. unfold write.
    change (sailbots port) with [boat].
    pose proof (write_single bytes_ boat) as W.
    destruct (write_all bytes_ [boat]) as [r bots]. exact W. }
  rewrite Hb, update_single in Hs.
  injection Hs as Hs. symmetry in Hs. revert Hs.
  apply update_turns.
  - apply decode_keeps_manual. reflexivity.
  - destruct (decode_serial_input_frame bytes_ boat)
      as (_ & _ & _ & _ & _ & Hd & _).
    rewrite Hd. change (direction boat) with 0. lia.
Qed.

End Counterexamples.

(** * Further properties of the vehicle *)

Section VehicleInvariants.

Context {F : Type} {PF : PyFloat F} {L : Link}.

(** A vehicle never leaves "MANUAL" and keeps the attributes that only
    [__init__] assigns; so every [update] of it ticks. *)
Theorem reachable_stays_manual (addr : string) (s : SailBotSim F) :
  reachable addr s ->
  controller s = "MANUAL" /\
  address s = addr /\
  true_wind_angle s = 30 /\
  speed s = 0 /\ ang_speed s = 0 /\
  snd (update s) = state_space_model s.
Proof.
  intros Hr.
  assert (H : controller s = "MANUAL" /\ address s = addr /\
              true_wind_angle s = 30 /\ speed s = 0 /\ ang_speed s = 0).
  { induction Hr as [| s Hr IH | s Hr IH | s frame Hr IH].
    - repeat split.
    - exact IH.
    - unfold update. cbn [snd].
      destruct (String.eqb (controller s) "MANUAL"); exact IH.
    - destruct IH as (Hc & Ha & Hw & Hs & Hg).
      destruct (decode_serial_input_frame frame s)
        as (Ha' & Hw' & _ & _ & _ & _ & _ & _ & Hs' & Hg').
      rewrite Ha', Hw', Hs', Hg'.
      split; [apply decode_keeps_manual; exact Hc |].
      repeat split; assumption. }
  destruct H as (Hc & Ha & Hw & Hs & Hg).
  repeat split; try assumption.
  rewrite (update_manual s Hc). reflexivity.
Qed.

(** The direction is always a multiple of 10.  The wind angle is
    [(true_wind_angle - direction) mod 360] once a tick has happened; a
    vehicle that has not ticked yet has direction 0 and wind angle 0 for a
    true wind angle of 30. *)
Theorem reachable_wind_angle (addr : string) (s : SailBotSim F) :
  reachable addr s ->
  direction s mod 10 = 0 /\
  (wind_angle s = (true_wind_angle s - direction s) mod 360 \/
   (direction s = 0 /\ wind_angle s = 0 /\ true_wind_angle s = 30)).
Proof.
  assert (Htick : forall t : SailBotSim F,
    direction t mod 10 = 0 ->
    direction (state_space_model t) mod 10 = 0 /\
    (wind_angle (state_space_model t) =
       (true_wind_angle (state_space_model t)
        - direction (state_space_model t)) mod 360 \/
     (direction (state_space_model t) = 0 /\
      wind_angle (state_space_model t) = 0 /\
      true_wind_angle (state_space_model t) = 30))).
  { intros t Ht. cbn [state_space_model direction wind_angle true_wind_angle].
    split.
    - pose proof (Z.div_mod (direction t + 10) 360 ltac:(lia)) as E.
      pose proof (Z.div_mod (direction t) 10 ltac:(lia)) as E'.
      rewrite Ht in E'.
      replace ((direction t + 10) mod 360)
        with (10 * (direction t / 10 + 1 - 36 * ((direction t + 10) / 360)))
        by lia.
      rewrite Z.mul_comm. apply Z.mod_mul. lia.
    - left. f_equal. ring. }
  induction 1 as [| s Hr IH | s Hr IH | s frame Hr IH].
  - split; [reflexivity |]. right. repeat split.
  - apply Htick. apply IH.
  - unfold update. cbn [snd].
    destruct (String.eqb (controller s) "MANUAL");
      [apply Htick; apply IH | exact IH].
  - destruct (decode_serial_input_frame frame s)
      as (_ & Hw & _ & _ & Hwa & Hd & _).
    rewrite Hw, Hwa, Hd. exact IH.
Qed.

(** The signed reading of a byte lies in [-128, 127] and is the byte
    modulo 256. *)
Lemma signed_slider_byte (v : Z) :
  0 <= v <= 255 ->
  -128 <= signed_slider v <= 127 /\ signed_slider v mod 256 = v.
Proof.
  intros Hv. unfold signed_slider.
  destruct (Z.ltb_spec 127 v) as [H | H].
  - split; [lia |].
    replace (v - 256) with (v + (-1) * 256) by ring.
    rewrite Z.mod_add by lia. apply Z.mod_small. lia.
  - split; [lia |]. apply Z.mod_small. lia.
Qed.

(** When the codec delivers move commands with byte-sized fields, both
    sliders of a vehicle stay in [-128, 127]. *)
Theorem reachable_sliders_in_range (addr : string) (s : SailBotSim F) :
  (forall frame payload lx ry,
     decode_frame frame = Returned payload ->
     protocol.values payload = protocol.CommandMoveRaw lx ry ->
     0 <= lx <= 255 /\ 0 <= ry <= 255) ->
  reachable addr s ->
  (-128 <= rudder_slider s <= 127) /\ (-128 <= sail_slider s <= 127).
Proof.
  intros Hbytes.
  induction 1 as [| s Hr IH | s Hr IH | s frame Hr IH].
  - cbn. lia.
  - exact IH.
  - unfold update. cbn [snd].
    destruct (String.eqb (controller s) "MANUAL"); exact IH.
  - unfold decode_serial_input.
    destruct (decode_frame frame) as [payload | e] eqn:Hd; [| exact IH].
    destruct (String.eqb _ _); [| exact IH].
    destruct (protocol.PayloadType_eqb _ _); [| exact IH].
    destruct (protocol.values payload) as [? ? ? ? | | lx ry |] eqn:Hv;
      cbn [protocol.left_x protocol.right_y snd]; try exact IH.
    destruct (Hbytes frame payload lx ry Hd Hv) as [Hlx Hry].
    cbn [set_sail_slider set_rudder_slider rudder_slider sail_slider].
    split.
    + apply (signed_slider_byte lx Hlx).
    + apply (signed_slider_byte ry Hry).
Qed.

(** Where the two copies of the position agree at construction, they agree
    ever after. *)
Theorem reachable_consistent (addr : string) (s : SailBotSim F) :
  consistent (init addr) ->
  reachable addr s ->
  consistent s.
Proof.
  intros H0.
  assert (Htick : forall t : SailBotSim F, consistent (state_space_model t)).
  { intros t. unfold consistent.
    cbn [state_space_model latitude longitude x y].
    destruct (convert_cartesian_to_geographical _ _). reflexivity. }
  induction 1 as [| s Hr IH | s Hr IH | s frame Hr IH].
  - exact H0.
  - apply Htick.
  - unfold update. cbn [snd].
    destruct (String.eqb (controller s) "MANUAL"); [apply Htick | exact IH].
  - unfold consistent in *.
    destruct (decode_serial_input_frame frame s)
      as (_ & _ & Hla & Hlo & _ & _ & Hx & Hy & _).
    rewrite Hla, Hlo, Hx, Hy. exact IH.
Qed.

End VehicleInvariants.

(** * Further properties of decoding and encoding *)

Section CommandFacts.

Context {F : Type} {PF : PyFloat F} {L : Link}.

Lemma PayloadType_eqb_move (t : protocol.PayloadType) :
  protocol.PayloadType_eqb t protocol.CMD_MOVE_RAW = true <->
  t = protocol.CMD_MOVE_RAW.
Proof.
  destruct t; cbn; split; intros H; try reflexivity; discriminate.
Qed.

(** What [decode_serial_input] does with a move command that carries both
    fields, by the comparison of the addresses. *)
Lemma decode_move_by_address
    (frame : list Byte.byte) (s : SailBotSim F) payload lx ry :
  decode_frame frame = Returned payload ->
  protocol.payload_type payload = protocol.CMD_MOVE_RAW ->
  protocol.values payload = protocol.CommandMoveRaw lx ry ->
  decode_serial_input frame s =
    (Returned tt,
     if String.eqb (address s)
          (slice_from 2 (hex (protocol.destination (protocol.header payload))))
     then apply_move lx ry s else s).
Proof.
  intros Hd Ht Hv. unfold decode_serial_input. rewrite Hd, Ht, Hv.
  destruct (String.eqb _ _); reflexivity.
Qed.

(** A decoded payload that is not a move command is ignored, also when it
    is addressed to the vehicle. *)
Theorem decode_ignores_other_payloads
    (frame : list Byte.byte) (s : SailBotSim F) payload :
  decode_frame frame = Returned payload ->
  protocol.payload_type payload <> protocol.CMD_MOVE_RAW ->
  decode_serial_input frame s = (Returned tt, s).
Proof.
  intros Hd Ht. unfold decode_serial_input. rewrite Hd.
  destruct (String.eqb _ _); [| reflexivity].
  destruct (protocol.PayloadType_eqb _ _) eqn:E; [| reflexivity].
  apply PayloadType_eqb_move in E. contradiction.
Qed.

Lemma apply_move_frame (lx ry : Z) (s t : SailBotSim F) :
  address t = address s ->
  true_wind_angle t = true_wind_angle s ->
  latitude t = latitude s -> longitude t = longitude s ->
  wind_angle t = wind_angle s -> direction t = direction s ->
  x t = x s -> y t = y s ->
  speed t = speed s -> ang_speed t = ang_speed s ->
  apply_move lx ry t = apply_move lx ry s.
Proof.
  destruct s, t. cbn. intros. subst. reflexivity.
Qed.

(** A move command for the vehicle overrides whatever buffer came before
    it: decoding it after any other buffer, accepted, ignored or rejected,
    leaves the vehicle as decoding it alone does.  In particular a command
    decoded twice is the command decoded once. *)
Theorem decode_last_command_wins
    (first frame : list Byte.byte) (s : SailBotSim F) payload lx ry :
  decode_frame frame = Returned payload ->
  address s =
    slice_from 2 (hex (protocol.destination (protocol.header payload))) ->
  protocol.payload_type payload = protocol.CMD_MOVE_RAW ->
  protocol.values payload = protocol.CommandMoveRaw lx ry ->
  decode_serial_input frame (snd (decode_serial_input first s)) =
    decode_serial_input frame s /\
  decode_serial_input frame (snd (decode_serial_input frame s)) =
    decode_serial_input frame s.
Proof.
  intros Hd Ha Ht Hv.
  assert (H : forall other,
    decode_serial_input frame (snd (decode_serial_input other s)) =
    decode_serial_input frame s).
  { intros other.
    destruct (decode_serial_input_frame other s)
      as (A1 & A2 & A3 & A4 & A5 & A6 & A7 & A8 & A9 & A10).
    rewrite (decode_move_by_address frame _ payload lx ry Hd Ht Hv).
    rewrite (decode_move_by_address frame s payload lx ry Hd Ht Hv).
    rewrite A1, <- Ha, String.eqb_refl.
    f_equal. apply apply_move_frame; assumption. }
  split; apply H.
Qed.

(** For a vehicle whose address is written the way [hex] writes a number
    [n], the comparison of the addresses is the comparison of the numbers:
    a move command is taken when its destination is [n], the number the
    vehicle sends as its source, and left alone for any other
    destination. *)
Theorem decode_address_is_number
    (frame : list Byte.byte) (s : SailBotSim F) (n : N) payload lx ry :
  address s = hex_digits n ->
  decode_frame frame = Returned payload ->
  0 <= protocol.destination (protocol.header payload) ->
  protocol.payload_type payload = protocol.CMD_MOVE_RAW ->
  protocol.values payload = protocol.CommandMoveRaw lx ry ->
  int16 (address s) = Returned (Z.of_N n) /\
  (protocol.destination (protocol.header payload) = Z.of_N n ->
   decode_serial_input frame s = (Returned tt, apply_move lx ry s)) /\
  (protocol.destination (protocol.header payload) <> Z.of_N n ->
   decode_serial_input frame s = (Returned tt, s)).
Proof.
  intros Ha Hd Hpos Ht Hv.
  set (dst := protocol.destination (protocol.header payload)) in *.
  rewrite (decode_move_by_address frame s payload lx ry Hd Ht Hv).
  fold dst. rewrite (slice_hex_nonneg dst Hpos), Ha.
  split; [apply int16_hex_digits |]. split.
  - intros E. rewrite E, N2Z.id, String.eqb_refl. reflexivity.
  - intros E.
    destruct (String.eqb_spec (hex_digits n) (hex_digits (Z.to_N dst)))
      as [Heq | _]; [| reflexivity].
    exfalso. apply E.
    pose proof (int16_hex_digits n) as H1.
    rewrite Heq, int16_hex_digits in H1.
    injection H1 as H1. rewrite Z2N.id in H1 by assumption. exact H1.
Qed.

(** A frame that [update] returns on "MANUAL" is the encoding of a
    telemetry payload from the vehicle to the gateway for the state after
    the tick; the direction and the wind angle it carries are in
    [0, 360). *)
Theorem update_frame_contents (s : SailBotSim F) (bs : list Byte.byte) :
  controller s = "MANUAL" ->
  fst (update s) = Returned bs ->
  exists h lat lon b,
    let d1 := (direction s + 10) mod 360 in
    let w1 := (true_wind_angle s - d1) mod 360 in
    int16 (address s) = Returned (protocol.source h) /\
    int16 GATEWAY_ADDRESS_DEFAULT = Returned (protocol.destination h) /\
    protocol.application h = protocol.SailBot /\
    int_of (fmul (latitude (state_space_model s)) (fdec 1000000 0))
      = Returned lat /\
    int_of (fmul (longitude (state_space_model s)) (fdec 1000000 0))
      = Returned lon /\
    to_bytes
      {| protocol.header := h;
         protocol.payload_type := protocol.SAILBOT_DATA;
         protocol.values := protocol.SailBotData d1 lat lon w1 |}
      = Returned b /\
    bs = hdlc_encode b /\
    0 <= d1 < 360 /\ 0 <= w1 < 360.
Proof.
  intros Hc Hu. rewrite (update_manual s Hc) in Hu. cbn [fst] in Hu.
  unfold encode_serial_output, header in Hu.
  cbn [state_space_model address direction wind_angle] in Hu.
  destruct (int16 GATEWAY_ADDRESS_DEFAULT) as [dst |] eqn:Hg;
    cbn [bind] in Hu; [| discriminate].
  destruct (int16 (address s)) as [src |] eqn:Hs;
    cbn [bind] in Hu; [| discriminate].
  destruct (int16 SWARM_ID_DEFAULT) as [swarm |] eqn:Hw;
    cbn [bind] in Hu; [| discriminate].
  destruct (int_of (fmul (latitude (state_space_model s)) (fdec 1000000 0)))
    as [lat |] eqn:Hlat; cbn [bind] in Hu; [| discriminate].
  destruct (int_of (fmul (longitude (state_space_model s)) (fdec 1000000 0)))
    as [lon |] eqn:Hlon; cbn [bind] in Hu; [| discriminate].
  match type of Hu with
  | bind (to_bytes ?p) _ = _ => destruct (to_bytes p) as [b |] eqn:Hb
  end; cbn [bind] in Hu; [| discriminate].
  injection Hu as Hu.
  exists {| protocol.destination := dst; protocol.source := src;
            protocol.swarm_id := swarm;
            protocol.application := protocol.SailBot;
            protocol.version := PROTOCOL_VERSION |}, lat, lon, b.
  cbn [protocol.source protocol.destination protocol.application].
  replace (true_wind_angle s - (direction s + 10) mod 360)
    with (- ((direction s + 10) mod 360) + true_wind_angle s) by ring.
  repeat split; try reflexivity; try assumption;
    try (symmetry; assumption); try (apply Z.mod_pos_bound; lia).
Qed.

End CommandFacts.

(** * Further properties of the serial interface *)

Section FleetFacts.

Context {F : Type} {PF : PyFloat F} {L : Link}.

Lemma send_assoc (bs cs : list Byte.byte) (out : sink) :
  send cs (send bs out) = send (bs ++ cs) out.
Proof. unfold send. rewrite map_app, app_assoc. reflexivity. Qed.

Lemma send_nil (out : sink) : send [] out = out.
Proof. unfold send. cbn. apply app_nil_r. Qed.

(** A pass over vehicles whose updates all return, from any sink. *)
Lemma update_all_returns (bots : list (SailBotSim F))
    (frames : list (list Byte.byte)) (out : sink) :
  Forall2 (fun s bs => fst (update s) = Returned bs) bots frames ->
  update_all bots out =
    (Returned tt,
     (map (fun s => snd (update s)) bots, send (List.concat frames) out)).
Proof.
  intros H. revert out.
  induction H as [| s bs bots frames Hs _ IH]; intros out.
  - cbn. rewrite send_nil. reflexivity.
  - cbn [update_all]. destruct (update s) as [r s'] eqn:E.
    cbn [fst snd] in *. subst r. rewrite IH. cbn [map List.concat].
    rewrite send_assoc, E. reflexivity.
Qed.

(** A pass in which the update of one vehicle raises. *)
Lemma update_all_raises (pre post : list (SailBotSim F)) (s : SailBotSim F)
    (frames : list (list Byte.byte)) (e : exn) (out : sink) :
  Forall2 (fun v bs => fst (update v) = Returned bs) pre frames ->
  fst (update s) = Raised e ->
  update_all (pre ++ s :: post)%list out =
    (Raised e,
     ((map (fun v => snd (update v)) pre ++ snd (update s) :: post)%list,
      send (List.concat frames) out)).
Proof.
  intros H Hs. revert out.
  induction H as [| v bs pre frames Hv _ IH]; intros out.
  - change (([] ++ s :: post)%list) with (s :: post).
    cbn [map List.concat update_all]. rewrite send_nil.
    destruct (update s) as [r s'] eqn:E. cbn [fst snd] in *. subst r.
    reflexivity.
  - change (((v :: pre) ++ s :: post)%list) with (v :: (pre ++ s :: post)%list).
    cbn [update_all]. destruct (update v) as [r v'] eqn:E.
    cbn [fst snd] in *. subst r. rewrite IH. cbn [map List.concat].
    rewrite send_assoc, E. reflexivity.
Qed.

Lemma run_loop_ended (clock : list F) (d : SailBotSimSerialInterface F) e :
  ended d = Some e -> run_loop clock d = d.
Proof.
  intros He. unfold run_loop. induction clock as [| t clock IH].
  - reflexivity.
  - cbn [fold_left]. unfold loop_iteration at 2. rewrite He. exact IH.
Qed.

(** When every update of a due pass returns a frame, the pass updates every
    vehicle and hands the frames to the callback in the order of the fleet,
    the bytes of a frame in their order, one byte per call; the thread goes
    on with the next due time set from the reading. *)
Theorem pass_sends_frames_in_order
    (t : F) (d : SailBotSimSerialInterface F)
    (frames : list (list Byte.byte)) :
  ended d = None ->
  fge t (next_time d) = true ->
  Forall2 (fun s bs => fst (update s) = Returned bs) (sailbots d) frames ->
  loop_iteration t d =
    {| sailbots := map (fun s => snd (update s)) (sailbots d);
       callback := (callback d ++ map (fun b => [b]) (List.concat frames))%list;
       next_time := fadd t delta_t;
       ended := None |}.
Proof.
  intros He Hdue Hf. unfold loop_iteration. rewrite He, Hdue.
  rewrite (update_all_returns _ frames _ Hf). reflexivity.
Qed.

(** When the update of a vehicle raises in a due pass, the vehicles before
    it have been updated and their frames sent, the vehicle itself has
    ticked without a frame, the vehicles after it are untouched, and the
    thread is over: no later reading of the clock changes anything. *)
Theorem pass_raising_ends_thread
    (t : F) (d : SailBotSimSerialInterface F)
    (pre post : list (SailBotSim F)) (s : SailBotSim F)
    (frames : list (list Byte.byte)) (e : exn) :
  ended d = None ->
  fge t (next_time d) = true ->
  sailbots d = (pre ++ s :: post)%list ->
  Forall2 (fun v bs => fst (update v) = Returned bs) pre frames ->
  fst (update s) = Raised e ->
  loop_iteration t d =
    {| sailbots :=
         (map (fun v => snd (update v)) pre ++ snd (update s) :: post)%list;
       callback := (callback d ++ map (fun b => [b]) (List.concat frames))%list;
       next_time := next_time d;
       ended := Some e |} /\
  forall clock, run_loop clock (loop_iteration t d) = loop_iteration t d.
Proof.
  intros He Hdue Hb Hf Hs.
  assert (E : loop_iteration t d =
    {| sailbots :=
         (map (fun v => snd (update v)) pre ++ snd (update s) :: post)%list;
       callback := (callback d ++ map (fun b => [b]) (List.concat frames))%list;
       next_time := next_time d;
       ended := Some e |}).
  { unfold loop_iteration. rewrite He, Hdue, Hb.
    rewrite (update_all_raises pre post s frames e _ Hf Hs). reflexivity. }
  split; [exact E |].
  intros clock. apply (run_loop_ended clock _ e). rewrite E. reflexivity.
Qed.

(** After a pass at the reading [t], turns with readings that compare below
    [t + delta_t] do nothing: two passes are never closer than
    [delta_t]. *)
Theorem passes_are_spaced
    (t : F) (clock : list F) (d : SailBotSimSerialInterface F) :
  ended d = None ->
  fge t (next_time d) = true ->
  fst (update_all (sailbots d) (callback d)) = Returned tt ->
  Forall (fun t' => fge t' (fadd t delta_t) = false) clock ->
  run_loop clock (loop_iteration t d) = loop_iteration t d.
Proof.
  intros He Hdue Hok Hc.
  destruct (loop_iteration_due t d He Hdue) as (_ & _ & Hn).
  destruct (Hn Hok) as [Hnext Hlive].
  set (d' := loop_iteration t d) in *.
  unfold run_loop. induction Hc as [| t' clock Ht' _ IH].
  - reflexivity.
  - cbn [fold_left]. unfold loop_iteration at 2.
    rewrite Hlive, Hnext, Ht'. exact IH.
Qed.

(** A buffer that decodes to a move command reaches every vehicle of the
    fleet: those whose address compares equal to the destination take the
    command, the others stay as they are, and [write] returns. *)
Theorem write_reaches_matching_vehicles
    (bytes_ : list Byte.byte) (d : SailBotSimSerialInterface F)
    payload lx ry :
  decode_frame bytes_ = Returned payload ->
  protocol.payload_type payload = protocol.CMD_MOVE_RAW ->
  protocol.values payload = protocol.CommandMoveRaw lx ry ->
  write bytes_ d =
    (Returned tt,
     {| sailbots :=
          map (fun s =>
                 if String.eqb (address s)
                      (slice_from 2
                         (hex (protocol.destination (protocol.header payload))))
                 then apply_move lx ry s else s)
              (sailbots d);
        callback := callback d;
        next_time := next_time d;
        ended := ended d |}).
Proof.
  intros Hd Ht Hv. unfold write.
  assert (E : forall bots : list (SailBotSim F),
    write_all bytes_ bots =
      (Returned tt,
       map (fun s =>
              if String.eqb (address s)
                   (slice_from 2
                      (hex (protocol.destination (protocol.header payload))))
              then apply_move lx ry s else s) bots)).
  { induction bots as [| b rest IH]; [reflexivity |].
    cbn [write_all map].
    rewrite (decode_move_by_address bytes_ b payload lx ry Hd Ht Hv), IH.
    reflexivity. }
  rewrite E. reflexivity.
Qed.

Lemma update_controls (s : SailBotSim F) :
  controls (snd (update s)) = controls s.
Proof.
  unfold update. cbn [snd].
  destruct (String.eqb (controller s) "MANUAL"); reflexivity.
Qed.

Lemma update_all_controls (bots : list (SailBotSim F)) (out : sink) :
  map controls (fst (snd (update_all bots out))) = map controls bots.
Proof.
  revert out. induction bots as [| b rest IH]; intros out; [reflexivity |].
  cbn [update_all]. pose proof (update_controls b) as Hb.
  destruct (update b) as [[bs | e] b']; cbn [snd] in Hb.
  - specialize (IH (send bs out)).
    destruct (update_all rest (send bs out)) as [r [rest' out']].
    cbn [fst snd map] in *. rewrite Hb, IH. reflexivity.
  - cbn [fst snd map]. rewrite Hb. reflexivity.
Qed.

Lemma decode_pose (bytes_ : list Byte.byte) (s : SailBotSim F) :
  pose (snd (decode_serial_input bytes_ s)) = pose s.
Proof.
  destruct (decode_serial_input_frame bytes_ s)
    as (_ & _ & A3 & A4 & A5 & A6 & A7 & A8 & _).
  unfold pose. rewrite A3, A4, A5, A6, A7, A8. reflexivity.
Qed.

Lemma write_all_pose (bytes_ : list Byte.byte) (bots : list (SailBotSim F)) :
  map pose (snd (write_all bytes_ bots)) = map pose bots.
Proof.
  induction bots as [| b rest IH]; [reflexivity |].
  cbn [write_all]. pose proof (decode_pose bytes_ b) as Hb.
  destruct (decode_serial_input bytes_ b) as [[[] | e] b']; cbn [snd] in Hb.
  - destruct (write_all bytes_ rest) as [r rest'].
    cbn [snd map] in *. rewrite Hb, IH. reflexivity.
  - cbn [snd map]. rewrite Hb. reflexivity.
Qed.

(** The two sides of the interface assign different attributes.  A write,
    whether it returns or raises, leaves the position, the direction and
    the wind angle of every vehicle, the sink, the due time and the thread
    as they are; a turn of the loop, whether it passes, skips or raises,
    leaves the address, the controller and the sliders of every vehicle as
    they are. *)
Theorem write_and_loop_assign_apart
    (d : SailBotSimSerialInterface F) :
  (forall bytes_,
     map pose (sailbots (snd (write bytes_ d))) = map pose (sailbots d) /\
     callback (snd (write bytes_ d)) = callback d /\
     next_time (snd (write bytes_ d)) = next_time d /\
     ended (snd (write bytes_ d)) = ended d) /\
  (forall t,
     map controls (sailbots (loop_iteration t d)) = map controls (sailbots d)).
Proof.
  split.
  - intros bytes_. split; [| apply write_frame].
    unfold write. pose proof (write_all_pose bytes_ (sailbots d)) as H.
    destruct (write_all bytes_ (sailbots d)) as [r bots]. exact H.
  - intros t. unfold loop_iteration.
    destruct (ended d); [reflexivity |].
    destruct (fge t (next_time d)); [| reflexivity].
    pose proof (update_all_controls (sailbots d) (callback d)) as H.
    destruct (update_all (sailbots d) (callback d)) as [[[] | e] [bots out]];
      exact H.
Qed.

Lemma one_byte_calls_send (bs : list Byte.byte) (out : sink) :
  one_byte_calls out -> one_byte_calls (send bs out).
Proof.
  intros H. unfold one_byte_calls, send. apply Forall_app. split; [exact H |].
  apply Forall_map. apply Forall_forall. intros b _. reflexivity.
Qed.

Lemma update_all_sink (bots : list (SailBotSim F)) (out : sink) :
  one_byte_calls out ->
  one_byte_calls (snd (snd (update_all bots out))) /\
  exists ext, snd (snd (update_all bots out)) = (out ++ ext)%list.
Proof.
  revert out. induction bots as [| b rest IH]; intros out Ho.
  - cbn. split; [exact Ho | exists []; symmetry; apply app_nil_r].
  - cbn [update_all]. destruct (update b) as [[bs | e] b'].
    + specialize (IH (send bs out) (one_byte_calls_send bs out Ho)).
      destruct (update_all rest (send bs out)) as [r [rest' out']].
      cbn [snd] in *. destruct IH as [H1 [ext H2]].
      split; [exact H1 |].
      exists (map (fun c => [c]) bs ++ ext)%list.
      rewrite H2. unfold send. rewrite app_assoc. reflexivity.
    + cbn [snd]. split; [exact Ho | exists []; symmetry; apply app_nil_r].
Qed.

Lemma advertise_all_sink (bots : list (SailBotSim F)) (out : sink) :
  one_byte_calls out -> one_byte_calls (snd (advertise_all bots out)).
Proof.
  revert out. induction bots as [| b rest IH]; intros out Ho.
  - exact Ho.
  - cbn [advertise_all]. destruct (advertise b) as [bs | e].
    + apply IH. apply one_byte_calls_send. exact Ho.
    + exact Ho.
Qed.

Lemma step_sink (d : SailBotSimSerialInterface F) (ev : event F) :
  one_byte_calls (callback d) ->
  one_byte_calls (callback (step d ev)) /\
  exists ext, callback (step d ev) = (callback d ++ ext)%list.
Proof.
  intros Ho. destruct ev as [t | bs]; cbn [step].
  - unfold loop_iteration.
    destruct (ended d);
      [split; [exact Ho | exists []; symmetry; apply app_nil_r] |].
    destruct (fge t (next_time d));
      [| split; [exact Ho | exists []; symmetry; apply app_nil_r]].
    pose proof (update_all_sink (sailbots d) (callback d) Ho) as H.
    destruct (update_all (sailbots d) (callback d)) as [[[] | e] [bots out]];
      exact H.
  - destruct (write_frame bs d) as (Hc & _). rewrite Hc.
    split; [exact Ho | exists []; symmetry; apply app_nil_r].
Qed.

(** Through every interleaving of turns of the loop and writes after the
    start, each call of the callback carries exactly one byte, and the
    calls already made stay: the sink only grows, beginning with the
    advertisement. *)
Theorem sink_grows_byte_by_byte (now : F) (evs : list (event F)) :
  one_byte_calls (callback (run_events evs (start now))) /\
  exists ext,
    callback (run_events evs (start now))
    = (callback (start now) ++ ext)%list.
Proof.
  assert (H0 : one_byte_calls (callback (start now))).
  { unfold start.
    pose proof (advertise_all_sink [init "1234567890123456"] []
                  (Forall_nil _)) as H.
    destruct (advertise_all [init "1234567890123456"] []) as [[[] | e] out];
      exact H. }
  assert (H : forall d : SailBotSimSerialInterface F,
    one_byte_calls (callback d) ->
    one_byte_calls (callback (run_events evs d)) /\
    exists ext, callback (run_events evs d) = (callback d ++ ext)%list).
  { induction evs as [| ev evs IH]; intros d Hd.
    - split; [exact Hd | exists []; symmetry; apply app_nil_r].
    - unfold run_events in *. cbn [fold_left].
      destruct (step_sink d ev Hd) as [H1 [e1 E1]].
      destruct (IH (step d ev) H1) as [H2 [e2 E2]].
      split; [exact H2 |]. exists (e1 ++ e2)%list.
      rewrite E2, E1, app_assoc. reflexivity. }
  apply H. exact H0.
Qed.

End FleetFacts.

(** * Further properties in exact arithmetic *)

Section DriftFacts.

Context {L : Link}.

Lemma ticks_succ {F : Type} {PF : PyFloat F} (n : nat) (s : SailBotSim F) :
  ticks (S n) s = snd (update (ticks n s)).
Proof. unfold ticks. apply Nat.iter_succ. Qed.

Lemma ticks_keep_controls {F : Type} {PF : PyFloat F}
    (n : nat) (s : SailBotSim F) :
  controller (ticks n s) = controller s /\
  rudder_slider (ticks n s) = rudder_slider s /\
  sail_slider (ticks n s) = sail_slider s /\
  true_wind_angle (ticks n s) = true_wind_angle s.
Proof.
  induction n as [| n IH]; [repeat split |].
  rewrite ticks_succ. destruct IH as (A & B & C & D).
  unfold update. cbn [snd].
  destruct (String.eqb (controller (ticks n s)) "MANUAL");
    cbn [state_space_model controller rudder_slider sail_slider
         true_wind_angle]; repeat split; assumption.
Qed.

(** On "MANUAL", [n] ticks move [x] by [n] times the rudder slider and [y]
    by [n] times the sail slider and leave the sliders alone; from the
    first tick on the direction is [(direction + 10 n) mod 360], the wind
    angle follows it and latitude and longitude are those of the new [x]
    and [y]. *)
Theorem ticks_closed_form (n : nat) (s : SailBotSim R) :
  controller s = "MANUAL" ->
  x (ticks n s) = (x s + IZR (Z.of_nat n) * IZR (rudder_slider s))%R /\
  y (ticks n s) = (y s + IZR (Z.of_nat n) * IZR (sail_slider s))%R /\
  rudder_slider (ticks n s) = rudder_slider s /\
  sail_slider (ticks n s) = sail_slider s /\
  ((0 < n)%nat ->
   direction (ticks n s) = (direction s + 10 * Z.of_nat n) mod 360 /\
   wind_angle (ticks n s) =
     (true_wind_angle s - direction (ticks n s)) mod 360 /\
   (latitude (ticks n s), longitude (ticks n s)) =
     convert_cartesian_to_geographical (x (ticks n s)) (y (ticks n s))).
Proof.
  intros Hc.
  assert (Hm : forall k, controller (ticks k s) = "MANUAL").
  { intros k. destruct (ticks_keep_controls k s) as (A & _).
    rewrite A. exact Hc. }
  assert (Hstep : forall k,
    ticks (S k) s = state_space_model (ticks k s)).
  { intros k. rewrite ticks_succ, (update_manual _ (Hm k)). reflexivity. }
  destruct (ticks_keep_controls n s) as (_ & Hr & Hs & Hw).
  assert (Hxy :
    x (ticks n s) = (x s + IZR (Z.of_nat n) * IZR (rudder_slider s))%R /\
    y (ticks n s) = (y s + IZR (Z.of_nat n) * IZR (sail_slider s))%R).
  { clear Hr Hs Hw. induction n as [| n IH].
    - unfold ticks. cbn [Nat.iter nat_rect Z.of_nat]. split; ring.
    - destruct IH as [Hx Hy].
      destruct (ticks_keep_controls n s) as (_ & Hr & Hs & _).
      rewrite Hstep. cbn [state_space_model x y].
      rewrite Hx, Hy, Hr, Hs, Nat2Z.inj_succ, succ_IZR.
      cbn [fadd of_int PyFloat_R]. split; ring. }
  destruct Hxy as [Hx Hy].
  repeat (split; [assumption |]).
  intros Hn. destruct n as [| n]; [lia |]. clear Hn Hx Hy Hr Hs Hw.
  assert (Hd : direction (ticks (S n) s)
               = (direction s + 10 * Z.of_nat (S n)) mod 360).
  { induction n as [| n IH].
    - rewrite Hstep. unfold ticks. cbn [Nat.iter nat_rect].
      cbn [state_space_model direction]. f_equal.
    - rewrite Hstep. cbn [state_space_model direction]. rewrite IH.
      rewrite Zplus_mod_idemp_l. f_equal. lia. }
  split; [exact Hd |].
  rewrite Hstep. destruct (ticks_keep_controls n s) as (_ & _ & _ & Hw').
  cbn [state_space_model wind_angle direction latitude longitude x y].
  rewrite Hw'. split.
  - f_equal. ring.
  - destruct (convert_cartesian_to_geographical _ _). reflexivity.
Qed.

End DriftFacts.

(** * The further properties on the fleet *)

(** The plain link delivers move commands with byte-sized fields. *)
Lemma demo_byte_fields frame payload lx ry :
  decode_frame (L := demo.link) frame = Returned payload ->
  protocol.values payload = protocol.CommandMoveRaw lx ry ->
  0 <= lx <= 255 /\ 0 <= ry <= 255.
Proof.
  unfold decode_frame. cbn [hdlc_decode from_bytes demo.link].
  destruct (demo.hdlc_decode frame) as [body | e]; cbn [bind];
    [| discriminate].
  unfold demo.from_bytes.
  destruct (List.length body <? 9)%nat; [discriminate |].
  destruct (skipn 8 body) as [| t [| a [| b [| c rest]]]]; try discriminate;
    destruct t; intros H; inversion H; subst; cbn [protocol.values];
    intros Hv; try discriminate.
  inversion Hv; subst. unfold demo.value_of.
  pose proof (Byte.to_N_bounded a). pose proof (Byte.to_N_bounded b). lia.
Qed.

Section FleetInstances.

Import demo.

Lemma reachable_ticked_boat :
  reachable "1234567890123456"
    (snd (decode_serial_input move_frame (state_space_model boat))).
Proof. apply reach_decode. apply reach_tick. apply reach_init. Qed.

Lemma reachable_stays_manual_boat :
  let s := snd (decode_serial_input move_frame (state_space_model boat)) in
  reachable "1234567890123456" s /\
  controller s = "MANUAL" /\ address s = "1234567890123456" /\
  true_wind_angle s = 30 /\ speed s = 0 /\ ang_speed s = 0 /\
  snd (update s) = state_space_model s.
Proof.
  intros s. split; [exact reachable_ticked_boat |].
  apply (reachable_stays_manual "1234567890123456" s reachable_ticked_boat).
Defined.

Lemma reachable_wind_angle_boat :
  let s := snd (decode_serial_input move_frame (state_space_model boat)) in
  reachable "1234567890123456" s /\
  direction s mod 10 = 0 /\
  (wind_angle s = (true_wind_angle s - direction s) mod 360 \/
   (direction s = 0 /\ wind_angle s = 0 /\ true_wind_angle s = 30)).
Proof.
  intros s. split; [exact reachable_ticked_boat |].
  apply (reachable_wind_angle "1234567890123456" s reachable_ticked_boat).
Defined.

Lemma reachable_sliders_in_range_boat :
  let s := snd (decode_serial_input move_frame (state_space_model boat)) in
  reachable "1234567890123456" s /\
  (-128 <= rudder_slider s <= 127) /\ (-128 <= sail_slider s <= 127).
Proof.
  intros s. split; [exact reachable_ticked_boat |].
  apply (reachable_sliders_in_range "1234567890123456" s
           demo_byte_fields reachable_ticked_boat).
Defined.

Lemma reachable_consistent_boat :
  let s := snd (decode_serial_input move_frame (state_space_model boat)) in
  consistent (init (F := float) "1234567890123456") /\
  reachable "1234567890123456" s /\
  consistent s.
Proof.
  intros s.
  assert (H0 : consistent (init (F := float) "1234567890123456"))
    by (vm_compute; reflexivity).
  split; [exact H0 |]. split; [exact reachable_ticked_boat |].
  apply (reachable_consistent "1234567890123456" s H0 reachable_ticked_boat).
Defined.

Lemma decode_ignores_other_payloads_boat :
  decode_frame advert_frame = Returned advert_payload /\
  address boat =
    slice_from 2
      (hex (protocol.destination (protocol.header advert_payload))) /\
  protocol.payload_type advert_payload <> protocol.CMD_MOVE_RAW /\
  decode_serial_input advert_frame boat = (Returned tt, boat).
Proof.
  assert (Hd : decode_frame advert_frame = Returned advert_payload)
    by (vm_compute; reflexivity).
  assert (Ht : protocol.payload_type advert_payload <> protocol.CMD_MOVE_RAW)
    by (vm_compute; discriminate).
  split; [exact Hd |]. split; [vm_compute; reflexivity |].
  split; [exact Ht |].
  apply (decode_ignores_other_payloads advert_frame boat advert_payload Hd Ht).
Defined.

Lemma decode_last_command_wins_boat :
  decode_frame move_frame = Returned move_payload /\
  decode_serial_input move_frame
    (snd (decode_serial_input truncated_frame boat)) =
    decode_serial_input move_frame boat /\
  decode_serial_input move_frame (snd (decode_serial_input move_frame boat)) =
    decode_serial_input move_frame boat.
Proof.
  assert (Hd : decode_frame move_frame = Returned move_payload)
    by (vm_compute; reflexivity).
  assert (Ha : address boat =
    slice_from 2 (hex (protocol.destination (protocol.header move_payload))))
    by (vm_compute; reflexivity).
  split; [exact Hd |].
  apply (decode_last_command_wins truncated_frame move_frame boat
           move_payload 200 50 Hd Ha eq_refl eq_refl).
Defined.

Lemma decode_address_is_number_boat :
  address boat = hex_digits 0x1234567890123456%N /\
  decode_frame move_frame = Returned move_payload /\
  int16 (address boat) = Returned 0x1234567890123456 /\
  decode_serial_input move_frame boat = (Returned tt, apply_move 200 50 boat).
Proof.
  assert (Ha : address boat = hex_digits 0x1234567890123456%N)
    by (vm_compute; reflexivity).
  assert (Hd : decode_frame move_frame = Returned move_payload)
    by (vm_compute; reflexivity).
  assert (Hp : 0 <= protocol.destination (protocol.header move_payload))
    by (vm_compute; discriminate).
  destruct (decode_address_is_number move_frame boat 0x1234567890123456%N
              move_payload 200 50 Ha Hd Hp eq_refl eq_refl)
    as (Hs & Hyes & _).
  split; [exact Ha |]. split; [exact Hd |]. split; [exact Hs |].
  apply Hyes. reflexivity.
Defined.

Lemma update_frame_contents_boat :
  controller boat = "MANUAL" /\
  fst (update boat) = Returned (frame_of boat) /\
  exists h lat lon b,
    int16 (address boat) = Returned (protocol.source h) /\
    to_bytes
      {| protocol.header := h;
         protocol.payload_type := protocol.SAILBOT_DATA;
         protocol.values := protocol.SailBotData 10 lat lon 20 |}
      = Returned b /\
    frame_of boat = hdlc_encode b.
Proof.
  assert (Hu : fst (update boat) = Returned (frame_of boat))
    by (vm_compute; reflexivity).
  split; [reflexivity |]. split; [exact Hu |].
  destruct (update_frame_contents boat (frame_of boat) eq_refl Hu)
    as (h & lat & lon & b & Hs & _ & _ & _ & _ & Hb & He & _).
  exists h, lat, lon, b.
  split; [exact Hs |]. split; [exact Hb | exact He].
Defined.

Lemma pass_sends_frames_in_order_convoy :
  ended convoy = None /\
  fge 1%float (next_time convoy) = true /\
  loop_iteration 1%float convoy =
    {| sailbots := [snd (update boat); snd (update sister)];
       callback :=
         map (fun b => [b]) (frame_of boat ++ frame_of sister)%list;
       next_time := fadd 1%float delta_t;
       ended := None |}.
Proof.
  assert (Hf : Forall2 (fun s bs => fst (update s) = Returned bs)
                 (sailbots convoy) [frame_of boat; frame_of sister]).
  { repeat constructor; vm_compute; reflexivity. }
  assert (Hdue : fge 1%float (next_time convoy) = true)
    by (vm_compute; reflexivity).
  split; [reflexivity |]. split; [exact Hdue |].
  rewrite (pass_sends_frames_in_order 1%float convoy
             [frame_of boat; frame_of sister] eq_refl Hdue Hf).
  cbn [sailbots callback convoy map List.concat app].
  rewrite app_nil_r. reflexivity.
Defined.

Lemma pass_raising_ends_thread_stricken :
  ended stricken = None /\
  fge 1%float (next_time stricken) = true /\
  fst (update wreck) = Raised ValueError /\
  loop_iteration 1%float stricken =
    {| sailbots := [snd (update boat); snd (update wreck); sister];
       callback := map (fun b => [b]) (frame_of boat);
       next_time := next_time stricken;
       ended := Some ValueError |} /\
  run_loop [2%float; 3%float] (loop_iteration 1%float stricken)
  = loop_iteration 1%float stricken.
Proof.
  assert (Hf : Forall2 (fun s bs => fst (update s) = Returned bs)
                 [boat] [frame_of boat]).
  { repeat constructor; vm_compute; reflexivity. }
  assert (Hw : fst (update wreck) = Raised ValueError)
    by (vm_compute; reflexivity).
  assert (Hdue : fge 1%float (next_time stricken) = true)
    by (vm_compute; reflexivity).
  destruct (pass_raising_ends_thread 1%float stricken [boat] [sister] wreck
              [frame_of boat] ValueError eq_refl Hdue eq_refl Hf Hw)
    as [E Hfrozen].
  split; [reflexivity |]. split; [exact Hdue |].
  split; [exact Hw |]. split; [| apply Hfrozen].
  rewrite E. cbn [callback stricken map List.concat app].
  rewrite app_nil_r. reflexivity.
Defined.

Lemma passes_are_spaced_port :
  ended port = None /\
  fge 2%float (next_time port) = true /\
  run_loop [2.25%float; 1%float; 2.375%float] (loop_iteration 2%float port)
  = loop_iteration 2%float port.
Proof.
  assert (He : ended port = None) by (vm_compute; reflexivity).
  assert (Hdue : fge 2%float (next_time port) = true)
    by (vm_compute; reflexivity).
  assert (Hok : fst (update_all (sailbots port) (callback port)) = Returned tt)
    by (vm_compute; reflexivity).
  split; [exact He |]. split; [exact Hdue |].
  apply (passes_are_spaced 2%float _ port He Hdue Hok).
  repeat constructor; vm_compute; reflexivity.
Defined.

Lemma write_reaches_matching_vehicles_convoy :
  decode_frame move_frame = Returned move_payload /\
  write move_frame convoy =
    (Returned tt,
     {| sailbots := [apply_move 200 50 boat; sister];
        callback := callback convoy;
        next_time := next_time convoy;
        ended := ended convoy |}).
Proof.
  assert (Hd : decode_frame move_frame = Returned move_payload)
    by (vm_compute; reflexivity).
  split; [exact Hd |].
  rewrite (write_reaches_matching_vehicles move_frame convoy
             move_payload 200 50 Hd eq_refl eq_refl).
  reflexivity.
Defined.

Lemma ticks_closed_form_steered_boat :
  controller steered_boat = "MANUAL" /\
  x (ticks 5 steered_boat) = (x steered_boat + 5 * 3)%R /\
  y (ticks 5 steered_boat) = (y steered_boat + 5 * (-2))%R /\
  direction (ticks 5 steered_boat) = 50 /\
  wind_angle (ticks 5 steered_boat) = 340.
Proof.
  destruct (ticks_closed_form 5 steered_boat eq_refl)
    as (Hx & Hy & _ & _ & Hd).
  destruct (Hd ltac:(lia)) as (Hdir & Hw & _).
  split; [reflexivity |]. split; [exact Hx |]. split; [exact Hy |].
  split; [exact Hdir |]. rewrite Hw, Hdir. reflexivity.
Defined.

End FleetInstances.

(** * The advertisement and the size of a tick *)

Section AdvertiseFacts.

Context {F : Type} {PF : PyFloat F} {L : Link}.

Lemma reachable_address (addr : string) (s : SailBotSim F) :
  reachable addr s -> address s = addr.
Proof.
  induction 1 as [| s Hr IH | s Hr IH | s frame Hr IH].
  - reflexivity.
  - exact IH.
  - unfold update. cbn [snd].
    destruct (String.eqb (controller s) "MANUAL"); exact IH.
  - destruct (decode_serial_input_frame frame s) as (Ha & _).
    rewrite Ha. exact IH.
Qed.

(** The header and the advertisement depend on the address alone: whatever
    a vehicle has been through, it advertises as it did when built. *)
Theorem advertisement_is_stable (addr : string) (s : SailBotSim F) :
  reachable addr s ->
  header s = header (init addr) /\ advertise s = advertise (init addr).
Proof.
  intros Hr. pose proof (reachable_address addr s Hr) as Ha.
  assert (Hh : header s = header (init addr)).
  { unfold header. rewrite Ha. reflexivity. }
  split; [exact Hh |]. unfold advertise. rewrite Hh. reflexivity.
Qed.

End AdvertiseFacts.

Section DegreeFacts.

Context {L : Link}.

Local Open Scope R_scope.

(** Over exact reals a vehicle is built with its two positions in
    agreement. *)
Lemma init_consistent_exact (addr : string) :
  consistent (F := R) (init addr).
Proof.
  unfold consistent, init. cbn [latitude longitude x y].
  unfold convert_cartesian_to_geographical, convert_geographical_to_cartesian.
  cbn [fst snd].
  pose proof PI_neq0 as Hpi.
  pose proof (fdec_R_nonzero 180 3 ltac:(lia)) as H180.
  pose proof (fdec_R_nonzero 658139837 9 ltac:(lia)) as Hcos.
  assert (Hr : IZR earth_radius_km <> 0) by (apply not_0_IZR; discriminate).
  unfold cos_phi_0, origin_coord_latitude, origin_coord_longitude.
  set (c180 := fdec 180 3) in *. set (cphi := fdec 658139837 9) in *.
  set (lat0 := fdec 48825908 6). set (lon0 := fdec 2406433 6).
  set (lat1 := fdec 48832313 6). set (lon1 := fdec 2412689 6).
  cbn [fadd fsub fmul fdiv of_int math_pi PyFloat_R].
  f_equal; field; repeat split; assumption.
Qed.

(** Over exact reals, a tick of a vehicle whose two positions agree moves
    the latitude by the sail slider times 0.18 / (pi * 6371) degrees and
    the longitude by the rudder slider times
    0.18 / (pi * 0.658139837 * 6371) degrees. *)
Theorem tick_moves_degrees (s : SailBotSim R) :
  consistent s ->
  latitude (state_space_model s) =
    latitude s + IZR (sail_slider s) * (180 / 1000) / PI / 6371 /\
  longitude (state_space_model s) =
    longitude s
    + IZR (rudder_slider s) * (180 / 1000) / PI
      / (658139837 / 1000000000) / 6371.
Proof.
  unfold consistent. intros Hc.
  pose proof (f_equal fst Hc) as Hlat. pose proof (f_equal snd Hc) as Hlon.
  cbn [fst snd] in Hlat, Hlon.
  cbn [state_space_model latitude longitude].
  rewrite Hlat, Hlon.
  unfold convert_cartesian_to_geographical. cbn [fst snd].
  unfold cos_phi_0, origin_coord_latitude, origin_coord_longitude,
    earth_radius_km.
  cbn [fadd fsub fmul fdiv of_int fdec math_pi PyFloat_R].
  change (10 ^ Z.of_nat 3)%Z with 1000%Z.
  change (10 ^ Z.of_nat 6)%Z with 1000000%Z.
  change (10 ^ Z.of_nat 9)%Z with 1000000000%Z.
  pose proof PI_neq0 as Hpi.
  split; field; try split; try assumption; lra.
Qed.

End DegreeFacts.

Section DegreeInstances.

Import demo.

Lemma advertisement_is_stable_boat :
  let s := snd (decode_serial_input move_frame (state_space_model boat)) in
  reachable "1234567890123456" s /\
  header s = header boat /\ advertise s = advertise boat.
Proof.
  intros s. split; [exact reachable_ticked_boat |].
  apply (advertisement_is_stable "1234567890123456" s reachable_ticked_boat).
Defined.

Lemma tick_moves_degrees_steered_boat :
  consistent steered_boat /\
  latitude (state_space_model steered_boat) =
    (latitude steered_boat + -2 * (180 / 1000) / PI / 6371)%R /\
  longitude (state_space_model steered_boat) =
    (longitude steered_boat
     + 3 * (180 / 1000) / PI / (658139837 / 1000000000) / 6371)%R.
Proof.
  assert (Hc : consistent steered_boat)
    by exact (init_consistent_exact "1234567890123456").
  split; [exact Hc |].
  apply (tick_moves_degrees steered_boat Hc).
Defined.

End DegreeInstances.

(** * Telemetry off "MANUAL" *)

Section IdleFacts.

Context {F : Type} {PF : PyFloat F} {L : Link}.

(** The frames that [encode_serial_output] returns, and no others. *)
Lemma encode_serial_output_frames (s : SailBotSim F) (bs : list Byte.byte) :
  encode_serial_output s = Returned bs <->
  exists h lat lon b,
    header s = Returned h /\
    int_of (fmul (latitude s) (fdec 1000000 0)) = Returned lat /\
    int_of (fmul (longitude s) (fdec 1000000 0)) = Returned lon /\
    to_bytes
      {| protocol.header := h;
         protocol.payload_type := protocol.SAILBOT_DATA;
         protocol.values :=
           protocol.SailBotData (direction s) lat lon (wind_angle s) |}
      = Returned b /\
    bs = hdlc_encode b.
Proof.
  split.
  - unfold encode_serial_output. intros H.
    destruct (header s) as [h |]; cbn [bind] in H; [| discriminate].
    destruct (int_of (fmul (latitude s) (fdec 1000000 0))) as [lat |];
      cbn [bind] in H; [| discriminate].
    destruct (int_of (fmul (longitude s) (fdec 1000000 0))) as [lon |];
      cbn [bind] in H; [| discriminate].
    match type of H with
    | bind (to_bytes ?p) _ = _ => destruct (to_bytes p) as [b |] eqn:Hb
    end; cbn [bind] in H; [| discriminate].
    injection H as H. exists h, lat, lon, b.
    repeat split; try reflexivity; [exact Hb | symmetry; exact H].
  - intros (h & lat & lon & b & Hh & Hlat & Hlon & Hb & ->).
    apply (encode_serial_output_returned s h lat lon b); assumption.
Qed.

(** C10. With a controller other than "MANUAL", [update] skips the tick and
    leaves every attribute as it was, and its outcome is that of
    [encode_serial_output] on the unchanged vehicle: it returns a frame
    exactly when the header, the two scaled coordinates and the
    serialisation are produced, and the frame is then the framed telemetry
    of the unchanged state.  In a due pass of the loop over any fleet whose
    updates return, the vehicle stays as it is and its frame goes to the
    callback byte by byte, one call per byte, between the frames of the
    vehicles before and after it. *)
Theorem update_without_manual (s : SailBotSim F) :
  controller s <> "MANUAL" ->
  snd (update s) = s /\
  fst (update s) = encode_serial_output s /\
  (forall bs,
     fst (update s) = Returned bs <->
     exists h lat lon b,
       header s = Returned h /\
       int_of (fmul (latitude s) (fdec 1000000 0)) = Returned lat /\
       int_of (fmul (longitude s) (fdec 1000000 0)) = Returned lon /\
       to_bytes
         {| protocol.header := h;
            protocol.payload_type := protocol.SAILBOT_DATA;
            protocol.values :=
              protocol.SailBotData (direction s) lat lon (wind_angle s) |}
         = Returned b /\
       bs = hdlc_encode b) /\
  (forall bs (d : SailBotSimSerialInterface F) (t : F)
          (pre post : list (SailBotSim F))
          (before after : list (list Byte.byte)),
     fst (update s) = Returned bs ->
     ended d = None ->
     fge t (next_time d) = true ->
     sailbots d = (pre ++ s :: post)%list ->
     Forall2 (fun v f => fst (update v) = Returned f) pre before ->
     Forall2 (fun v f => fst (update v) = Returned f) post after ->
     loop_iteration t d =
       {| sailbots :=
            (map (fun v => snd (update v)) pre
             ++ s :: map (fun v => snd (update v)) post)%list;
          callback :=
            (callback d
             ++ map (fun c => [c])
                  (List.concat before ++ bs ++ List.concat after))%list;
          next_time := fadd t delta_t;
          ended := None |}).
Proof.
  intros Hc. pose proof (update_not_manual s Hc) as Hu.
  split; [rewrite Hu; reflexivity |].
  split; [rewrite Hu; reflexivity |].
  split.
  - intros bs. rewrite Hu. cbn [fst]. apply encode_serial_output_frames.
  - intros bs d t pre post before after Hbs He Hdue Hfleet Hpre Hpost.
    assert (Hall : Forall2 (fun v f => fst (update v) = Returned f)
                     (sailbots d) (before ++ bs :: after)%list).
    { rewrite Hfleet. apply Forall2_app; [exact Hpre |].
      constructor; [exact Hbs | exact Hpost]. }
    unfold loop_iteration. rewrite He, Hdue.
    rewrite (update_all_returns _ _ _ Hall).
    rewrite Hfleet, map_app. cbn [map]. rewrite Hu. cbn [snd].
    rewrite concat_app. cbn [List.concat]. unfold send. reflexivity.
Qed.

End IdleFacts.

(** * A command for an address that is not written as [hex] writes it *)

Section PaddedAddress.

Context {F : Type} {PF : PyFloat F} {L : Link}.

(** A move command whose destination is the number of the vehicle's
    address, for an address that [hex] would write otherwise (leading
    zeros, upper case), is dropped. *)
Lemma decode_drops_unnormalised_address
    (frame : list Byte.byte) (s : SailBotSim F) payload :
  decode_frame frame = Returned payload ->
  0 <= protocol.destination (protocol.header payload) ->
  int16 (address s)
    = Returned (protocol.destination (protocol.header payload)) ->
  address s
    <> hex_digits (Z.to_N (protocol.destination (protocol.header payload))) ->
  decode_serial_input frame s = (Returned tt, s).
Proof.
  intros Hd Hpos _ Hne. unfold decode_serial_input. rewrite Hd.
  rewrite (slice_hex_nonneg _ Hpos).
  destruct (String.eqb_spec (address s)
              (hex_digits (Z.to_N
                 (protocol.destination (protocol.header payload)))));
    [contradiction | reflexivity].
Qed.

(** C5, on the code. The vehicle built with the address "0000000000000001"
    sends 1 as its source, yet a move command for destination 1 is lost on
    it: line 74 compares the text of the address with "1", so the sliders
    stay 0 where the signed bytes of the command were to be stored. *)
Theorem decode_drops_padded_address
    (frame : list Byte.byte) payload lx ry :
  decode_frame frame = Returned payload ->
  protocol.destination (protocol.header payload) = 1 ->
  protocol.payload_type payload = protocol.CMD_MOVE_RAW ->
  protocol.values payload = protocol.CommandMoveRaw lx ry ->
  let s : SailBotSim F := init "0000000000000001" in
  int16 (address s) = Returned 1 /\
  decode_serial_input frame s = (Returned tt, s) /\
  rudder_slider (snd (decode_serial_input frame s)) = 0 /\
  sail_slider (snd (decode_serial_input frame s)) = 0.
Proof.
  intros Hd Hdst Ht Hv s.
  assert (Hs : int16 (address s) = Returned 1) by reflexivity.
  assert (E : decode_serial_input frame s = (Returned tt, s)).
  { apply (decode_drops_unnormalised_address frame s payload Hd);
      rewrite Hdst; [lia | exact Hs | discriminate]. }
  split; [exact Hs |]. split; [exact E |]. rewrite E. split; reflexivity.
Qed.

End PaddedAddress.

Section RevisedInstances.

Import demo.

Lemma update_without_manual_boat :
  controller idle <> "MANUAL" /\
  snd (update idle) = idle /\
  fst (update idle) = Returned idle_frame /\
  loop_iteration 1%float mixed =
    {| sailbots := [snd (update boat); idle; snd (update sister)];
       callback :=
         map (fun c => [c]) (frame_of boat ++ idle_frame ++ frame_of sister)%list;
       next_time := fadd 1%float delta_t;
       ended := None |}.
Proof.
  assert (Hc : controller idle <> "MANUAL") by (vm_compute; discriminate).
  assert (Hf : fst (update idle) = Returned idle_frame)
    by (vm_compute; reflexivity).
  assert (Hdue : fge 1%float (next_time mixed) = true)
    by (vm_compute; reflexivity).
  assert (Hpre : Forall2 (fun v f => fst (update v) = Returned f)
                   [boat] [frame_of boat]).
  { repeat constructor; vm_compute; reflexivity. }
  assert (Hpost : Forall2 (fun v f => fst (update v) = Returned f)
                    [sister] [frame_of sister]).
  { repeat constructor; vm_compute; reflexivity. }
  destruct (update_without_manual idle Hc) as (H1 & _ & _ & Hpass).
  split; [exact Hc |]. split; [exact H1 |]. split; [exact Hf |].
  rewrite (Hpass idle_frame mixed 1%float [boat] [sister]
             [frame_of boat] [frame_of sister]
             Hf eq_refl Hdue eq_refl Hpre Hpost).
  cbn [map List.concat app callback mixed]. rewrite !app_nil_r.
  reflexivity.
Defined.

Lemma decode_drops_padded_address_demo :
  decode_frame one_frame = Returned one_payload /\
  int16 (address padded) = Returned 1 /\
  decode_serial_input one_frame padded = (Returned tt, padded) /\
  rudder_slider (snd (decode_serial_input one_frame padded)) = 0 /\
  sail_slider (snd (decode_serial_input one_frame padded)) = 0.
Proof.
  assert (Hd : decode_frame one_frame = Returned one_payload)
    by (vm_compute; reflexivity).
  split; [exact Hd |].
  apply (decode_drops_padded_address (F := float) one_frame one_payload
           200 50 Hd eq_refl eq_refl eq_refl).
Defined.

End RevisedInstances.
